(** * Document Parser API: the upload-to-parse pipeline of [app.py]

    A shallow embedding of the two FastAPI handlers of [src/app.py]
    ([parse_document], [get_supported_formats]) and of the parser registry
    [PARSER_MAP], followed by the properties of the pipeline.

    Conventions of the embedding.
    - A Python [str] is a Rocq [string]; [str.lower] and [str.upper] act on
      the ASCII letters, which are the only cased characters of the
      registry's keys.
    - [pathlib.Path] is the POSIX flavour of CPython up to 3.13: the name is
      the last component that is neither empty nor ["."], the suffix starts
      at the last dot of the name unless that dot is its first or its last
      character.
    - A raised exception is a value of [exn]; every class modelled is a
      subclass of [Exception], as the errors of a parser or of the
      filesystem are.
    - The process state is explicit: the registry (a module global), the
      set of existing files, and the trace of the effects performed.
    - Every call to the outside may fail, [print] included: the host says
      of each call whether it raises. *)

From Stdlib Require Import ZArith Ascii String DecimalString List Bool Lia.
From stdpp Require Import base decidable gmap strings list.

Local Open Scope string_scope.
Local Open Scope Z_scope.

(** ** Python strings *)

Module PyStr.

Definition ascii_lower (c : ascii) : ascii :=
  let n := nat_of_ascii c in
  if (65 <=? n)%nat && (n <=? 90)%nat then ascii_of_nat (n + 32) else c.


(** [s.lower()] *)
Fixpoint lower (s : string) : string :=
  match s with
  | EmptyString => EmptyString
  | String c r => String (ascii_lower c) (lower r)
  end.


(** [s.split(sep)] for a one-character separator: never an empty list. *)
Fixpoint split (sep : ascii) (s : string) : list string :=
  match s with
  | EmptyString => [EmptyString]
  | String c r =>
      if Ascii.eqb c sep then EmptyString :: split sep r
      else match split sep r with
           | [] => [String c EmptyString]
           | x :: xs => String c x :: xs
           end
  end.

(** [s.rfind(c)]: the highest index of [c] in [s], [-1] when absent. *)
Fixpoint rfind (c : ascii) (s : string) : Z :=
  match s with
  | EmptyString => -1
  | String a r =>
      let i := rfind c r in
      if 0 <=? i then i + 1
      else if Ascii.eqb a c then 0 else -1
  end.

(** [len(s)] *)
Definition len (s : string) : Z := Z.of_nat (String.length s).

(** [s[i:]] for [0 <= i]. *)
Definition slice_from (i : Z) (s : string) : string :=
  substring (Z.to_nat i) (String.length s - Z.to_nat i) s.

(** [sep.join(l)] *)
Definition join (sep : string) (l : list string) : string :=
  String.concat sep l.

(** [c in s] for a character. *)
Fixpoint contains_char (c : ascii) (s : string) : bool :=
  match s with
  | EmptyString => false
  | String a r => Ascii.eqb a c || contains_char c r
  end.

End PyStr.

(** ** [pathlib.Path(...).suffix] *)

Module PyPath.

Definition sep : ascii := "/"%char.
Definition dot : ascii := "."%char.

(** The parsed tail of a path: [[x for x in rel.split(sep) if x and x != '.']]. *)
Definition parts (path : string) : list string :=
  List.filter (fun x => negb (String.eqb x "") && negb (String.eqb x "."))
              (PyStr.split sep path).

(** [Path(path).name]: the last part, [''] when there is none. *)
Definition name (path : string) : string := List.last (parts path) "".

(** [Path(path).suffix]:
    [i = name.rfind('.'); name[i:] if 0 < i < len(name) - 1 else '']. *)
Definition suffix (path : string) : string :=
  let nm := name path in
  let i := PyStr.rfind dot nm in
  if (0 <? i) && (i <? PyStr.len nm - 1) then PyStr.slice_from i nm else "".

End PyPath.

(** ** The parser registry *)

(** The parser classes imported from [deepdoc.parser]. *)
Inductive parser_class :=
| PdfParser | DocxParser | ExcelParser | PptParser
| HtmlParser | JsonParser | MarkdownParser | TxtParser.

(** A Python [dict] with string keys keeps its insertion order: an
    association list, first binding of a key first. *)
Module PyDict.

Definition t (V : Type) : Type := list (string * V).

(** [d.keys()], in insertion order. *)
Definition keys {V} (d : t V) : list string := List.map fst d.

(** [d.get(k)]: the value bound to [k]. *)
Fixpoint get {V} (k : string) (d : t V) : option V :=
  match d with
  | [] => None
  | (k', v) :: r => if String.eqb k k' then Some v else get k r
  end.

(** [k in d] *)
Definition contains {V} (k : string) (d : t V) : bool :=
  match get k d with Some _ => true | None => false end.

End PyDict.

(** [PARSER_MAP], lines 31-42. *)
Definition PARSER_MAP : PyDict.t parser_class :=
  [ (".pdf", PdfParser);
    (".docx", DocxParser);
    (".xlsx", ExcelParser);
    (".xls", ExcelParser);
    (".pptx", PptParser);
    (".ppt", PptParser);
    (".html", HtmlParser);
    (".json", JsonParser);
    (".md", MarkdownParser);
    (".txt", TxtParser) ].

(** ** Exceptions, effects and the process state *)

(** The exceptions the handlers see. [HTTPException] is FastAPI's (a
    subclass of [Exception]); [PermissionError] is the class line 91 names;
    [Error] is an instance of any other subclass of [Exception], with the
    name of its class and its [str()]. *)
Inductive exn :=
| HTTPException (status_code : nat) (detail : string)
| PermissionError (message : string)
| Error (class_name : string) (message : string).

(** [FileNotFoundError]: what [os.unlink] raises for a path that is not
    there (any more). *)
Definition is_file_not_found (e : exn) : bool :=
  match e with
  | Error class_name _ => String.eqb class_name "FileNotFoundError"
  | _ => false
  end.

(** The effects a handler performs on the outside world. *)
Inductive event :=
| EvCreate (name : string)                  (* NamedTemporaryFile made this file *)
| EvRead                                    (* await file.read() *)
| EvWrite (name : string) (data : string)   (* temp_file.write(content) *)
| EvFlush (name : string)                   (* temp_file.flush() *)
| EvClose (name : string)                   (* temp_file.close() *)
| EvConstruct (cls : parser_class)          (* PARSER_MAP[suffix]() *)
| EvParse (cls : parser_class) (path : string)    (* parser(temp_file.name) *)
| EvExists (path : string) (found : bool)   (* os.path.exists(path) *)
| EvUnlink (path : string) (failure : option exn) (* os.unlink(path); None: removed *)
| EvSleep (ms : nat)                        (* time.sleep *)
| EvPrint (line : string)                   (* print(line) wrote the line *)
| EvPrintFailed (line : string) (e : exn).  (* print(line) raised e: no line written *)

(** The state of the process and of its host: the module global
    [PARSER_MAP], the files that exist, the effects so far (oldest first). *)
Record world := World {
  registry : PyDict.t parser_class;
  fs : gset string;
  trace : list event;
}.

Definition log_event (ev : event) (w : world) : world :=
  World (registry w) (fs w) (trace w ++ [ev]).

Definition with_fs (files : gset string) (w : world) : world :=
  World (registry w) files (trace w).

(** The result of running a block: a value, or a raised exception. *)
Inductive outcome (A : Type) :=
| Return (v : A)
| Raise (e : exn).
Arguments Return {A} v.
Arguments Raise {A} e.

(** A block of the handler: state passing with exceptions. *)
Definition M (A : Type) : Type := world -> outcome A * world.

Definition ret {A} (v : A) : M A := fun w => (Return v, w).

Definition raise {A} (e : exn) : M A := fun w => (Raise e, w).

Definition bind {A B} (m : M A) (k : A -> M B) : M B :=
  fun w =>
    match m w with
    | (Return v, w1) => k v w1
    | (Raise e, w1) => (Raise e, w1)
    end.

Notation "x <- m ;; k" := (bind m (fun x => k))
  (at level 100, m at next level, right associativity).
Notation "m ;;; k" := (bind m (fun _ => k))
  (at level 100, right associativity).

(** [try: body  except Exception as e: handler(e)] *)
Definition try_except {A} (body : M A) (handler : exn -> M A) : M A :=
  fun w =>
    match body w with
    | (Return v, w1) => (Return v, w1)
    | (Raise e, w1) => handler e w1
    end.

(** [try: body  finally: final]: the final block runs on every exit of the
    body; what the body returned or raised stands unless the final block
    raises itself. *)
Definition try_finally {A} (body : M A) (final : M unit) : M A :=
  fun w =>
    match body w with
    | (o, w1) =>
        match final w1 with
        | (Return _, w2) => (o, w2)
        | (Raise e, w2) => (Raise e, w2)
        end
    end.

Definition emit (ev : event) : M unit := fun w => (Return tt, log_event ev w).

(** A call to the outside that either raises or completes. *)
Definition call (ev : event) (failure : option exn) : M unit :=
  fun w =>
    match failure with
    | Some e => (Raise e, log_event ev w)
    | None => (Return tt, log_event ev w)
    end.

(** ** The environment of a request *)

Section Pipeline.

(** What a parser returns: opaque to the handler. *)
Context {content : Type}.

(** A JSON value of a response body. *)
Inductive value :=
| VStr (s : string)
| VList (l : list string)
| VContent (c : content).

(** A response body: a Python [dict] literal. *)
Definition body : Type := PyDict.t value.

(** The uploaded file as the handler sees it: its name (a multipart part
    is a file only when it carries one), and what [await file.read()]
    gives. *)
Record UploadFile := {
  filename : string;
  read : exn + string;
}.

(** The collaborators of the handler. Each may depend on all that
    happened before ([world] carries the trace), so that two calls with
    the same arguments may differ, as two [os.unlink] of a locked file do. *)
Record Env := {
  (** [str(e)] of an [HTTPException]: fixed by the installed Starlette. *)
  str_HTTPException : nat -> string -> string;
  (** [tempfile.NamedTemporaryFile(delete=False, suffix=...)]: the name of
      the file made, or the exception raised with no file made. *)
  NamedTemporaryFile : string -> world -> exn + string;
  temp_write : string -> string -> world -> option exn;
  temp_flush : string -> world -> option exn;
  temp_close : string -> world -> option exn;
  (** Instantiating a parser class, [PARSER_MAP[suffix]()]. *)
  parser_new : parser_class -> world -> option exn;
  (** Calling the instance on a path: what it returns or raises, and the
      files that exist when it is done. *)
  parser_call : parser_class -> string -> world -> (exn + content) * gset string;
  (** [os.unlink(path)]: [None] when the file was removed. *)
  os_unlink : string -> world -> option exn;
  (** [print(line)]: [None] when the line was written to the standard
      output, the exception raised otherwise (a closed or broken stream,
      a character the stream cannot encode). *)
  stdout_print : string -> world -> option exn;
}.

Variable E : Env.

(** [str(e)] *)
Definition str (e : exn) : string :=
  match e with
  | HTTPException status_code detail => str_HTTPException E status_code detail
  | PermissionError message => message
  | Error _ message => message
  end.

(** *** Primitive effects *)

Definition print (line : string) : M unit :=
  fun w =>
    match stdout_print E line w with
    | Some e => (Raise e, log_event (EvPrintFailed line e) w)
    | None => (Return tt, log_event (EvPrint line) w)
    end.

(** [time.sleep(seconds)], the wait counted in milliseconds:
    [time.sleep(0.1)] is [time_sleep 100]. *)
Definition time_sleep (ms : nat) : M unit := emit (EvSleep ms).

Definition os_path_exists (path : string) : M bool :=
  fun w =>
    let found := bool_decide (path ∈ fs w) in
    (Return found, log_event (EvExists path found) w).

(** [os.unlink(path)]. A call that returns has removed the file; a call
    that raises leaves it, unless it raises [FileNotFoundError]: the file
    was there at [os.path.exists] and another process has removed it since. *)
Definition unlink (path : string) : M unit :=
  fun w =>
    match os_unlink E path w with
    | Some e =>
        (Raise e,
         log_event (EvUnlink path (Some e))
           (if is_file_not_found e then with_fs (fs w ∖ {[path]}) w else w))
    | None => (Return tt, log_event (EvUnlink path None) (with_fs (fs w ∖ {[path]}) w))
    end.

Definition new_temp_file (suffix : string) : M string :=
  fun w =>
    match NamedTemporaryFile E suffix w with
    | inl e => (Raise e, w)
    | inr name => (Return name, log_event (EvCreate name) (with_fs (fs w ∪ {[name]}) w))
    end.

Definition file_read (file : UploadFile) : M string :=
  fun w =>
    match read file with
    | inl e => (Raise e, log_event EvRead w)
    | inr data => (Return data, log_event EvRead w)
    end.

Definition write (name data : string) : M unit :=
  fun w => call (EvWrite name data) (temp_write E name data w) w.

Definition flush (name : string) : M unit :=
  fun w => call (EvFlush name) (temp_flush E name w) w.

Definition close (name : string) : M unit :=
  fun w => call (EvClose name) (temp_close E name w) w.

Definition construct (cls : parser_class) : M parser_class :=
  fun w =>
    match parser_new E cls w with
    | Some e => (Raise e, log_event (EvConstruct cls) w)
    | None => (Return cls, log_event (EvConstruct cls) w)
    end.

Definition parse (parser : parser_class) (path : string) : M content :=
  fun w =>
    match parser_call E parser path w with
    | (inl e, files) => (Raise e, log_event (EvParse parser path) (with_fs files w))
    | (inr result, files) => (Return result, log_event (EvParse parser path) (with_fs files w))
    end.

(** Reading the module global: [suffix in PARSER_MAP], [PARSER_MAP[suffix]],
    [PARSER_MAP.keys()]. *)
Definition registry_contains (k : string) : M bool :=
  fun w => (Return (PyDict.contains k (registry w)), w).

Definition registry_getitem (k : string) : M parser_class :=
  fun w =>
    match PyDict.get k (registry w) with
    | Some cls => (Return cls, w)
    | None => (Raise (Error "KeyError" ("'" ++ k ++ "'")), w)
    end.

Definition registry_keys : M (list string) :=
  fun w => (Return (PyDict.keys (registry w)), w).

(** *** [parse_document], lines 45-103 *)

Definition max_retries : nat := 3.

(** One attempt, lines 88-89: [if os.path.exists(name): os.unlink(name)]. *)
Definition attempt (name : string) : M unit :=
  found <- os_path_exists name ;;
  if found then unlink name else ret tt.

(** The [for] loop, lines 86-95, over the rest of [range(max_retries)]: an
    attempt that completes leaves the loop ([break]), a [PermissionError]
    is handled and the loop goes on, any other exception leaves the loop
    raised, and so does what the handler of line 91 raises itself, which
    only its [print] can. *)
Fixpoint delete_loop (name : string) (range : list nat) : M unit :=
  match range with
  | [] => ret tt
  | i :: rest =>
      fun w =>
        match attempt name w with
        | (Return _, w1) => (Return tt, w1)
        | (Raise (PermissionError _), w1) =>
            ((if (i <? max_retries - 1)%nat
              then time_sleep 100
              else print ("Warning: Could not delete temporary file: " ++ name)) ;;;
             delete_loop name rest) w1
        | (Raise e, w1) => (Raise e, w1)
        end
  end.

(** The [finally] block, lines 82-97. The file object is always true. What
    the [print] of line 97 raises leaves the block. *)
Definition release (temp_file : string) : M unit :=
  try_except
    (delete_loop temp_file (seq 0 max_retries))
    (fun e => print ("Warning: Error while deleting temporary file: " ++ str e)).

(** Lines 71-80. *)
Definition stage_and_parse (file : UploadFile) (suffix temp_file : string) : M body :=
  data <- file_read file ;;
  write temp_file data ;;;
  flush temp_file ;;;
  close temp_file ;;;
  cls <- registry_getitem suffix ;;
  parser <- construct cls ;;
  result <- parse parser temp_file ;;
  ret [("status", VStr "success"); ("content", VContent result)].

(** The detail of line 64. *)
Definition unsupported_detail (suffix : string) (keys : list string) : string :=
  "Unsupported file type: " ++ suffix ++ ". Supported types are: "
    ++ PyStr.join ", " keys.

(** Line 58: [Path(file.filename).suffix.lower()]. *)
Definition extension (file : UploadFile) : string :=
  PyStr.lower (PyPath.suffix (filename file)).

(** The block of the outer [try], lines 57-97. *)
Definition parse_document_try (file : UploadFile) : M body :=
  let suffix := extension file in
  known <- registry_contains suffix ;;
  if negb known then
    keys <- registry_keys ;;
    raise (HTTPException 400 (unsupported_detail suffix keys))
  else
    temp_file <- new_temp_file suffix ;;
    try_finally (stage_and_parse file suffix temp_file) (release temp_file).

Definition parse_document (file : UploadFile) : M body :=
  try_except
    (parse_document_try file)
    (fun e => raise (HTTPException 500 ("Error processing file: " ++ str e))).

(** *** [get_supported_formats], lines 105-108 *)

Definition get_supported_formats : M body :=
  keys <- registry_keys ;;
  ret [("supported_formats", VList keys)].

(** *** The framework around the handlers *)

(** What FastAPI sends for the outcome of a handler: the returned [dict]
    with status 200, the status and detail of a raised [HTTPException],
    and for any other exception the fault of an unhandled error. *)
Inductive response :=
| Response (status_code : nat) (payload : body)
| Unhandled (e : exn).

Definition respond (o : outcome body) : response :=
  match o with
  | Return payload => Response 200 payload
  | Raise (HTTPException status_code detail) =>
      Response status_code [("detail", VStr detail)]
  | Raise e => Unhandled e
  end.

Inductive request :=
| PostParse (file : UploadFile)
| GetSupportedFormats.

Definition handle (r : request) (w : world) : response * world :=
  match r with
  | PostParse file =>
      let (o, w1) := parse_document file w in (respond o, w1)
  | GetSupportedFormats =>
      let (o, w1) := get_supported_formats w in (respond o, w1)
  end.

(** The requests handled one after the other. *)
Fixpoint serve (rs : list request) (w : world) : list response * world :=
  match rs with
  | [] => ([], w)
  | r :: rest =>
      let (x, w1) := handle r w in
      let (xs, w2) := serve rest w1 in
      (x :: xs, w2)
  end.

End Pipeline.

Arguments value : clear implicits.
Arguments body : clear implicits.
Arguments Env : clear implicits.
Arguments response : clear implicits.

(** ** Observations on a trace *)

(** The names of the scratch files made. *)
Fixpoint created (d : list event) : list string :=
  match d with
  | [] => []
  | EvCreate name :: r => name :: created r
  | _ :: r => created r
  end.

(** The parser classes called on a path. *)
Fixpoint parsed (d : list event) : list (parser_class * string) :=
  match d with
  | [] => []
  | EvParse cls path :: r => (cls, path) :: parsed r
  | _ :: r => parsed r
  end.

(** The number of rounds of the deletion loop: each starts with one
    [os.path.exists]. *)
Fixpoint attempts (d : list event) : nat :=
  match d with
  | [] => 0
  | EvExists _ _ :: r => S (attempts r)
  | _ :: r => attempts r
  end.

(** What each [os.unlink] did, in order. *)
Fixpoint unlinks (d : list event) : list (option exn) :=
  match d with
  | [] => []
  | EvUnlink _ failure :: r => failure :: unlinks r
  | _ :: r => unlinks r
  end.

(** The waits, in milliseconds, in order. *)
Fixpoint sleeps (d : list event) : list nat :=
  match d with
  | [] => []
  | EvSleep ms :: r => ms :: sleeps r
  | _ :: r => sleeps r
  end.

(** The lines printed. *)
Fixpoint warnings (d : list event) : list string :=
  match d with
  | [] => []
  | EvPrint line :: r => line :: warnings r
  | _ :: r => warnings r
  end.

(** The prints that raised, with what they raised. *)
Fixpoint print_failures (d : list event) : list (string * exn) :=
  match d with
  | [] => []
  | EvPrintFailed line e :: r => (line, e) :: print_failures r
  | _ :: r => print_failures r
  end.

Definition is_print (ev : event) : bool :=
  match ev with
  | EvPrint _ | EvPrintFailed _ _ => true
  | _ => false
  end.

(** The calls of [print], in order. *)
Definition prints (d : list event) : list event := List.filter is_print d.

(** What the last call of [print] raised, when the trace ends with a call
    of [print] that raised: what the cleanup block raises, if anything. *)
Definition cleanup_error (d : list event) : option exn :=
  match last d with
  | Some (EvPrintFailed _ e) => Some e
  | _ => None
  end.

(** The trace as the deletion policy sees it: the first [print] that raised
    counted as a line written, and no call of [print] after it. Nothing
    changes where no [print] raised. *)
Fixpoint as_printed (d : list event) : list event :=
  match d with
  | [] => []
  | EvPrintFailed line _ :: r =>
      EvPrint line :: List.filter (fun ev => negb (is_print ev)) r
  | ev :: r => ev :: as_printed r
  end.

(** The events of the cleanup block. *)
Definition cleanup_event (ev : event) : bool :=
  match ev with
  | EvExists _ _ | EvUnlink _ _ | EvSleep _ | EvPrint _ | EvPrintFailed _ _ => true
  | _ => false
  end.

Definition is_permission_error (e : exn) : bool :=
  match e with PermissionError _ => true | _ => false end.

Definition permission_failure (r : option exn) : bool :=
  match r with Some e => is_permission_error e | None => false end.

(** The deletion policy as the specification words it: up to [n] attempts;
    an attempt that finds no file or removes it ends the policy; a
    lock/permission failure is followed by a wait of 100ms and the next
    attempt while attempts remain, and by a warning when none does; any
    other failure ends the policy at once, with a warning. *)
Inductive release_policy (name : string) : nat -> list event -> Prop :=
| policy_absent n :
    release_policy name (S n) [EvExists name false]
| policy_removed n :
    release_policy name (S n) [EvExists name true; EvUnlink name None]
| policy_abort n e line :
    is_permission_error e = false ->
    release_policy name (S n)
      [EvExists name true; EvUnlink name (Some e); EvPrint line]
| policy_retry n e d :
    is_permission_error e = true ->
    release_policy name (S n) d ->
    release_policy name (S (S n))
      (EvExists name true :: EvUnlink name (Some e) :: EvSleep 100 :: d)
| policy_exhausted e line :
    is_permission_error e = true ->
    release_policy name 1
      [EvExists name true; EvUnlink name (Some e); EvPrint line].

(** The deletion was attempted to exhaustion: [max_retries] calls of
    [os.unlink] were made and each failed on a lock, or a call failed for
    another reason, which ends the policy. *)
Definition deletion_exhausted (d : list event) : Prop :=
  (List.length (unlinks d) = max_retries /\
   forallb permission_failure (unlinks d) = true)
  \/ (exists e, last (unlinks d) = Some (Some e) /\ is_permission_error e = false).

(** The world once the upload is staged in [name]: the file made, the
    bytes read, written, flushed, and the file closed. *)
Definition world_created (name : string) (w : world) : world :=
  log_event (EvCreate name) (with_fs (fs w ∪ {[name]}) w).


(** The upload is staged in [name] with the bytes [data]: nothing raised
    from the creation of the scratch file to its closing. *)
Definition staged {content} (E : Env content) (file : UploadFile)
    (w : world) (name data : string) : Prop :=
  NamedTemporaryFile E (extension file) w = inr name /\
  read file = inr data /\
  temp_write E name data (log_event EvRead (world_created name w)) = None /\
  temp_flush E name
    (log_event (EvWrite name data) (log_event EvRead (world_created name w))) = None /\
  temp_close E name
    (log_event (EvFlush name)
      (log_event (EvWrite name data) (log_event EvRead (world_created name w)))) = None.

(** The process as it starts: the registry of lines 31-42, no effect yet. *)
Definition initial_world (files : gset string) : world :=
  World PARSER_MAP files [].

(** The environment with another [print]. *)
Definition with_stdout {content} (p : string -> world -> option exn)
    (E : Env content) : Env content :=
  {| str_HTTPException := str_HTTPException E;
     NamedTemporaryFile := NamedTemporaryFile E;
     temp_write := temp_write E;
     temp_flush := temp_flush E;
     temp_close := temp_close E;
     parser_new := parser_new E;
     parser_call := parser_call E;
     os_unlink := os_unlink E;
     stdout_print := p |}.

(** The environment with another [os.unlink]. *)
Definition with_unlink {content} (u : string -> world -> option exn)
    (E : Env content) : Env content :=
  {| str_HTTPException := str_HTTPException E;
     NamedTemporaryFile := NamedTemporaryFile E;
     temp_write := temp_write E;
     temp_flush := temp_flush E;
     temp_close := temp_close E;
     parser_new := parser_new E;
     parser_call := parser_call E;
     os_unlink := u;
     stdout_print := stdout_print E |}.

(** ** Notions used by the properties *)

(** What the handler of the outer [except], lines 99-103, makes of the
    outcome of the [try] block. *)
Definition surfaced {content} (E : Env content)
    (o : outcome (body content)) : outcome (body content) :=
  match o with
  | Return payload => Return payload
  | Raise e => Raise (HTTPException 500 ("Error processing file: " ++ str E e))
  end.



(** The scratch-file invariant as the specification states it: the request
    makes exactly one scratch file, and when its handling completes that
    file is gone, or its deletion was attempted to exhaustion and a warning
    is logged. *)
Definition one_scratch_file_released {content} (E : Env content)
    (file : UploadFile) (w : world) : Prop :=
  let w' := snd (parse_document E file w) in
  exists name d,
    trace w' = (trace w ++ d)%list /\
    created d = [name] /\
    ((name ∉ fs w') \/ (deletion_exhausted d /\ warnings d <> [])).



(** What the proofs keep of a run of the cleanup block on the scratch file
    [name], from the files [before] to the files [files], with the outcome
    [o] and the events [d]. *)
Definition cleanup_digest {content} (E : Env content) (name : string)
    (before : gset string) (o : outcome unit) (files : gset string)
    (d : list event) : Prop :=
  release_policy name max_retries (as_printed d) /\
  o = match cleanup_error d with None => Return tt | Some e => Raise e end /\
  (files = before \/ files = before ∖ {[name]}) /\
  ((name ∉ files)
   \/ (deletion_exhausted d /\
       (warnings d <> [] \/ exists e, cleanup_error d = Some e))) /\
  (warnings d = []
   \/ warnings d = ["Warning: Could not delete temporary file: " ++ name]
   \/ exists e,
        warnings d = ["Warning: Error while deleting temporary file: " ++ str E e]) /\
  (prints d <> [] -> exists e, In (Some e) (unlinks d)) /\
  Forall (fun p => exists w0, stdout_print E (fst p) w0 = Some (snd p))
    (print_failures d) /\
  ((name ∉ before) -> d = [EvExists name false]) /\
  forallb cleanup_event d = true.


(** The unsupported-format response as the specification states it. *)
Definition unsupported_format_response {content} (E : Env content)
    (file : UploadFile) (w : world) : Prop :=
  respond (fst (parse_document E file w))
    = Response 400
        [("detail",
          VStr ("Unsupported file type: " ++ extension file
                ++ ". Supported types are: "
                ++ PyStr.join ", " (PyDict.keys (registry w))))].

(** ** Concrete environments *)

(** [str(e)] of an [HTTPException] in Starlette: [f"{status_code}: {detail}"]. *)
Definition starlette_str (status_code : nat) (detail : string) : string :=
  NilEmpty.string_of_uint (Nat.to_uint status_code) ++ ": " ++ detail.

(** A host where every call succeeds. *)
Definition healthy_env : Env string :=
  {| str_HTTPException := starlette_str;
     NamedTemporaryFile := fun suffix _ => inr ("/tmp/tmpk3x9" ++ suffix);
     temp_write := fun _ _ _ => None;
     temp_flush := fun _ _ => None;
     temp_close := fun _ _ => None;
     parser_new := fun _ _ => None;
     parser_call := fun _ path w => (inr ("text of " ++ path), fs w);
     os_unlink := fun _ _ => None;
     stdout_print := fun _ _ => None |}.

(** A host where the scratch file stays locked. *)
Definition locked (path : string) (w : world) : option exn :=
  Some (PermissionError
          ("[WinError 32] The process cannot access the file: '" ++ path ++ "'")).

(** A host where the lock is gone once two [os.unlink] have failed. *)
Definition locked_twice (path : string) (w : world) : option exn :=
  if (List.length (unlinks (trace w)) <? 2)%nat then locked path w else None.

(** A host where [os.unlink] fails for another reason than a lock. *)
Definition read_only (path : string) (w : world) : option exn :=
  Some (Error "OSError" ("[Errno 30] Read-only file system: '" ++ path ++ "'")).

(** A parser that rejects the document, on a host that keeps the file locked. *)
Definition corrupt_env : Env string :=
  {| str_HTTPException := starlette_str;
     NamedTemporaryFile := fun suffix _ => inr ("/tmp/tmpk3x9" ++ suffix);
     temp_write := fun _ _ _ => None;
     temp_flush := fun _ _ => None;
     temp_close := fun _ _ => None;
     parser_new := fun _ _ => None;
     parser_call := fun _ _ w => (inl (Error "BadZipFile" "File is not a zip file"), fs w);
     os_unlink := locked;
     stdout_print := fun _ _ => None |}.

(** A host with no room for a scratch file. *)
Definition full_disk_env : Env string :=
  {| str_HTTPException := starlette_str;
     NamedTemporaryFile := fun _ _ =>
       inl (Error "OSError" "[Errno 28] No space left on device");
     temp_write := fun _ _ _ => None;
     temp_flush := fun _ _ => None;
     temp_close := fun _ _ => None;
     parser_new := fun _ _ => None;
     parser_call := fun _ path w => (inr ("text of " ++ path), fs w);
     os_unlink := fun _ _ => None;
     stdout_print := fun _ _ => None |}.

(** A standard output that is closed. *)
Definition closed_stdout (line : string) (w : world) : option exn :=
  Some (Error "ValueError" "I/O operation on closed file.").


(** The same with a parser that rejects the document and a file that stays
    locked. *)
Definition silent_corrupt_env : Env string :=
  with_stdout closed_stdout corrupt_env.

Definition upload (name data : string) : UploadFile :=
  {| filename := name; read := inr data |}.

(** ** Notions used by the further properties *)

(** The scratch file [name] is made and staging then fails with [e]: at
    [await file.read()], or at the write, the flush or the close of the
    scratch file, all that comes before having completed. *)
Definition staging_fails {content} (E : Env content) (file : UploadFile)
    (w : world) (name : string) (e : exn) : Prop :=
  NamedTemporaryFile E (extension file) w = inr name /\
  (read file = inl e \/
   exists data,
     read file = inr data /\
     let w1 := log_event EvRead (world_created name w) in
     let w2 := log_event (EvWrite name data) w1 in
     let w3 := log_event (EvFlush name) w2 in
     (temp_write E name data w1 = Some e \/
      (temp_write E name data w1 = None /\
       (temp_flush E name w2 = Some e \/
        (temp_flush E name w2 = None /\ temp_close E name w3 = Some e))))).

(** The events of lines 71-79: reading the upload, filling the scratch
    file, instantiating and calling the parser. *)
Definition staging_event (ev : event) : bool :=
  match ev with
  | EvRead | EvWrite _ _ | EvFlush _ | EvClose _
  | EvConstruct _ | EvParse _ _ => true
  | _ => false
  end.

(** The events that touch a parser. *)
Definition parser_event (ev : event) : bool :=
  match ev with
  | EvConstruct _ | EvParse _ _ => true
  | _ => false
  end.

(** A request the handler answers without any effect: the listing of the
    formats, or an upload whose extension the registry [reg] does not hold. *)
Definition effectless (reg : PyDict.t parser_class) (r : request) : Prop :=
  match r with
  | GetSupportedFormats => True
  | PostParse file => PyDict.contains (extension file) reg = false
  end.

(** The statuses the service answers with. *)
Definition answered {content} (x : response content) : Prop :=
  exists payload, x = Response 200 payload \/ x = Response 500 payload.

(** Every character of the string passes the test. *)
Fixpoint all_chars (P : ascii -> bool) (s : string) : bool :=
  match s with
  | EmptyString => true
  | String c r => P c && all_chars P r
  end.

(** A [str] of ASCII characters, on which [PyStr.lower] is [str.lower]. *)
Definition ascii_only (s : string) : bool :=
  all_chars (fun c => (nat_of_ascii c <? 128)%nat) s.

(** No letter from [A] to [Z]. *)
Definition no_upper (s : string) : bool :=
  all_chars (fun c => negb ((65 <=? nat_of_ascii c)%nat && (nat_of_ascii c <=? 90)%nat)) s.

(** A host whose disk fills up while the upload is written. *)
Definition write_fails_env : Env string :=
  {| str_HTTPException := starlette_str;
     NamedTemporaryFile := fun suffix _ => inr ("/tmp/tmpk3x9" ++ suffix);
     temp_write := fun _ _ _ =>
       Some (Error "OSError" "[Errno 28] No space left on device");
     temp_flush := fun _ _ => None;
     temp_close := fun _ _ => None;
     parser_new := fun _ _ => None;
     parser_call := fun _ path w => (inr ("text of " ++ path), fs w);
     os_unlink := fun _ _ => None;
     stdout_print := fun _ _ => None |}.

(** * Properties *)

Local Open Scope list_scope.

(** ** Strings and paths *)

Example suffix_report : PyPath.suffix "report.PDF" = ".PDF".
Proof. reflexivity. Qed.

Example suffix_hidden : PyPath.suffix ".bashrc" = "".
Proof. reflexivity. Qed.

Example suffix_trailing_dot : PyPath.suffix "notes." = "".
Proof. reflexivity. Qed.

Example suffix_dirs : PyPath.suffix "a.b/c.tar.gz" = ".gz".
Proof. reflexivity. Qed.

Example suffix_dir_only : PyPath.suffix "a.txt/." = ".txt".
Proof. reflexivity. Qed.

Example lower_mixed : PyStr.lower ".PdF" = ".pdf".
Proof. reflexivity. Qed.

Example starlette_str_400 : starlette_str 400 "x" = "400: x".
Proof. reflexivity. Qed.


Lemma ascii_lower_lower (c : ascii) :
  PyStr.ascii_lower (PyStr.ascii_lower c) = PyStr.ascii_lower c.
Proof. destruct c as [[] [] [] [] [] [] [] []]; reflexivity. Qed.


Lemma lower_lower (s : string) : PyStr.lower (PyStr.lower s) = PyStr.lower s.
Proof.
  induction s as [|c s IH]; simpl; [reflexivity|].
  now rewrite ascii_lower_lower, IH.
Qed.

(** A string without the character has no position for it. *)
Lemma rfind_absent (c : ascii) (s : string) :
  PyStr.contains_char c s = false -> PyStr.rfind c s = -1.
Proof.
  induction s as [|a s IH]; simpl; [reflexivity|].
  intros H. apply orb_false_iff in H as [Ha Hs].
  rewrite (IH Hs), Ha. reflexivity.
Qed.

(** The pieces of a split hold only characters of the string. *)
Lemma split_absent (c sep : ascii) (s : string) :
  PyStr.contains_char c s = false ->
  Forall (fun x => PyStr.contains_char c x = false) (PyStr.split sep s).
Proof.
  induction s as [|a s IH]; simpl; intros H.
  - repeat constructor.
  - apply orb_false_iff in H as [Ha Hs]. specialize (IH Hs).
    destruct (Ascii.eqb a sep).
    + constructor; [reflexivity | exact IH].
    + destruct (PyStr.split sep s) as [|x xs].
      * repeat constructor. simpl. now rewrite Ha.
      * inversion IH; subst. constructor; [|assumption].
        simpl. rewrite Ha. assumption.
Qed.

Lemma last_Forall {A} (P : A -> Prop) (l : list A) (d : A) :
  P d -> Forall P l -> P (List.last l d).
Proof.
  intros Hd. induction 1 as [|x l Hx Hl IH]; [exact Hd|].
  destruct l; [exact Hx | exact IH].
Qed.

Lemma name_absent (c : ascii) (path : string) :
  PyStr.contains_char c path = false ->
  PyStr.contains_char c (PyPath.name path) = false.
Proof.
  intros H. unfold PyPath.name, PyPath.parts.
  apply last_Forall; [reflexivity|].
  apply List.Forall_forall. intros x Hx.
  apply List.filter_In in Hx as [Hx _].
  pose proof (split_absent c PyPath.sep path H) as HF.
  rewrite List.Forall_forall in HF. now apply HF.
Qed.

(** A file name without a dot has the empty suffix. *)
Lemma suffix_no_dot (path : string) :
  PyStr.contains_char PyPath.dot path = false -> PyPath.suffix path = "".
Proof.
  intros H. unfold PyPath.suffix.
  rewrite (rfind_absent _ _ (name_absent _ _ H)). reflexivity.
Qed.

(** ** The registry *)




(** ** Traces *)

Lemma created_app (d1 d2 : list event) : created (d1 ++ d2) = created d1 ++ created d2.
Proof.
  induction d1 as [|ev d1 IH]; [reflexivity|].
  destruct ev; simpl; rewrite IH; reflexivity.
Qed.

Lemma parsed_app (d1 d2 : list event) : parsed (d1 ++ d2) = parsed d1 ++ parsed d2.
Proof.
  induction d1 as [|ev d1 IH]; [reflexivity|].
  destruct ev; simpl; rewrite IH; reflexivity.
Qed.

Lemma warnings_app (d1 d2 : list event) :
  warnings (d1 ++ d2) = warnings d1 ++ warnings d2.
Proof.
  induction d1 as [|ev d1 IH]; [reflexivity|].
  destruct ev; simpl; rewrite IH; reflexivity.
Qed.

Lemma attempts_app (d1 d2 : list event) :
  attempts (d1 ++ d2) = (attempts d1 + attempts d2)%nat.
Proof.
  induction d1 as [|ev d1 IH]; [reflexivity|].
  destruct ev; simpl; rewrite IH; reflexivity.
Qed.

(** ** The deletion policy *)

Section Policy.

Variable name : string.

Lemma policy_attempts (n : nat) (d : list event) :
  release_policy name n d -> (1 <= attempts d <= n)%nat.
Proof. induction 1; simpl; lia. Qed.

Lemma policy_unlinks (n : nat) (d : list event) :
  release_policy name n d -> (List.length (unlinks d) <= attempts d)%nat.
Proof. induction 1; simpl; lia. Qed.

(** One wait of 100ms between two attempts, none before the first or after
    the last. *)
Lemma policy_sleeps (n : nat) (d : list event) :
  release_policy name n d -> sleeps d = repeat 100%nat (attempts d - 1).
Proof.
  induction 1 as [| | | n e d He Hd IH |]; simpl; try reflexivity.
  rewrite IH. apply policy_attempts in Hd.
  destruct (attempts d) as [|a]; [lia|]. simpl. now rewrite Nat.sub_0_r.
Qed.

(** An [os.unlink] that is followed by another failed on a lock. *)
Lemma policy_retries (n : nat) (d : list event) :
  release_policy name n d ->
  Forall (fun r => permission_failure r = true) (removelast (unlinks d)).
Proof.
  induction 1 as [| | | n e d He Hd IH |]; simpl; try constructor.
  destruct (unlinks d) eqn:Hu.
  - constructor.
  - constructor; [exact He | exact IH].
Qed.

(** A failure of another class is the last event but the warning. *)
Lemma policy_abort_last (n : nat) (d1 d2 : list event) (e : exn) :
  release_policy name n (d1 ++ EvUnlink name (Some e) :: d2) ->
  is_permission_error e = false ->
  exists line, d2 = [EvPrint line].
Proof.
  intros H He.
  remember (d1 ++ EvUnlink name (Some e) :: d2) as d eqn:Hd.
  revert d1 Hd.
  induction H as [| | | n e' d He' Hd' IH |]; intros d1 Hd;
    destruct d1 as [|? [|? [|? d1]]]; simplify_eq/=; eauto;
    try congruence;
    match goal with
    | H : [] = ?l ++ _ |- _ => destruct l; discriminate H
    end.
Qed.

End Policy.

(** ** Prints in a trace *)

Lemma sleeps_app (d1 d2 : list event) : sleeps (d1 ++ d2) = sleeps d1 ++ sleeps d2.
Proof.
  induction d1 as [|ev d1 IH]; [reflexivity|].
  destruct ev; simpl; rewrite IH; reflexivity.
Qed.

Lemma unlinks_app (d1 d2 : list event) : unlinks (d1 ++ d2) = unlinks d1 ++ unlinks d2.
Proof.
  induction d1 as [|ev d1 IH]; [reflexivity|].
  destruct ev; simpl; rewrite IH; reflexivity.
Qed.

Lemma print_failures_app (d1 d2 : list event) :
  print_failures (d1 ++ d2) = print_failures d1 ++ print_failures d2.
Proof.
  induction d1 as [|ev d1 IH]; [reflexivity|].
  destruct ev; simpl; rewrite IH; reflexivity.
Qed.

Lemma prints_app (d1 d2 : list event) : prints (d1 ++ d2) = prints d1 ++ prints d2.
Proof. apply List.filter_app. Qed.

(** A trace without a call of [print]. *)
Lemma no_prints (d : list event) :
  prints d = [] ->
  warnings d = [] /\ print_failures d = [] /\ as_printed d = d /\
  List.filter (fun ev => negb (is_print ev)) d = d.
Proof.
  unfold prints. induction d as [|ev d IH]; [auto|].
  destruct ev; cbn; try discriminate; intros H;
    destruct (IH H) as (Hw & Hf & Ha & Hd); rewrite ?Ha, ?Hd; auto.
Qed.

Lemma as_printed_app (d1 d2 : list event) :
  prints d1 = [] -> as_printed (d1 ++ d2) = d1 ++ as_printed d2.
Proof.
  unfold prints. induction d1 as [|ev d1 IH]; [reflexivity|].
  destruct ev; cbn; try discriminate; intros H; now rewrite (IH H).
Qed.

(** Where no [print] raised, the policy sees the trace as it is. *)
Lemma as_printed_id (d : list event) : print_failures d = [] -> as_printed d = d.
Proof.
  induction d as [|ev d IH]; [reflexivity|].
  destruct ev; cbn; try discriminate; intros H; now rewrite (IH H).
Qed.

Lemma not_print_filter_unlinks (d : list event) :
  unlinks (List.filter (fun ev => negb (is_print ev)) d) = unlinks d /\
  attempts (List.filter (fun ev => negb (is_print ev)) d) = attempts d /\
  sleeps (List.filter (fun ev => negb (is_print ev)) d) = sleeps d.
Proof.
  induction d as [|ev d (Hu & Ha & Hs)]; [auto|].
  destruct ev; cbn; rewrite ?Hu, ?Ha, ?Hs; auto.
Qed.

(** The policy sees every attempt, every [os.unlink] and every wait. *)
Lemma as_printed_keeps (d : list event) :
  unlinks (as_printed d) = unlinks d /\
  attempts (as_printed d) = attempts d /\
  sleeps (as_printed d) = sleeps d.
Proof.
  induction d as [|ev d (Hu & Ha & Hs)]; [auto|].
  destruct ev; cbn; rewrite ?Hu, ?Ha, ?Hs; auto.
  apply not_print_filter_unlinks.
Qed.

Lemma cleanup_error_snoc (d : list event) (ev : event) :
  cleanup_error (d ++ [ev])
    = match ev with EvPrintFailed _ e => Some e | _ => None end.
Proof. unfold cleanup_error. now rewrite last_snoc. Qed.

Lemma cleanup_error_In (d : list event) (e : exn) :
  cleanup_error d = Some e -> exists line, In (line, e) (print_failures d).
Proof.
  unfold cleanup_error. destruct (last d) as [ev|] eqn:Hl; [|discriminate].
  destruct ev; try discriminate. intros [= ->].
  apply last_Some in Hl as [d0 ->]. exists line.
  rewrite print_failures_app. apply in_or_app. right. now left.
Qed.

Lemma cleanup_events_quiet (d : list event) :
  forallb cleanup_event d = true ->
  created d = [] /\ parsed d = [] /\ existsb parser_event d = false.
Proof.
  induction d as [|ev d IH]; [auto|].
  cbn [forallb]. intros [Hev Hd]%andb_true_iff.
  destruct (IH Hd) as (? & ? & ?).
  destruct ev; try discriminate Hev; cbn; auto.
Qed.

Lemma staging_events_quiet (d : list event) :
  forallb staging_event d = true ->
  warnings d = [] /\ sleeps d = [] /\ created d = [] /\
  unlinks d = [] /\ attempts d = 0%nat /\ print_failures d = [] /\ prints d = [].
Proof.
  induction d as [|ev d IH]; [auto 8|].
  cbn [forallb]. intros [Hev Hd]%andb_true_iff.
  destruct (IH Hd) as (? & ? & ? & ? & ? & ? & ?).
  destruct ev; try discriminate Hev; cbn; auto 8.
Qed.

(** ** The cleanup block *)

Section Cleanup.

Context {content : Type}.
Variable E : Env content.

Lemma not_elem_of_removed (name : string) (files : gset string) :
  name ∉ files ∖ {[name]}.
Proof.
  intros [_ Hn]%elem_of_difference. apply Hn. now apply elem_of_singleton.
Qed.

(** The three ways one attempt ends. *)
Lemma attempt_cases (name : string) (w : world) :
  ((name ∉ fs w) /\
   attempt E name w = (Return tt, log_event (EvExists name false) w))
  \/ (name ∈ fs w /\
      attempt E name w =
        (Return tt, World (registry w) (fs w ∖ {[name]})
                      (trace w ++ [EvExists name true; EvUnlink name None])))
  \/ (name ∈ fs w /\
      exists e,
        os_unlink E name (log_event (EvExists name true) w) = Some e /\
        attempt E name w =
          (Raise e,
           World (registry w)
             (if is_file_not_found e then fs w ∖ {[name]} else fs w)
             (trace w ++ [EvExists name true; EvUnlink name (Some e)]))).
Proof.
  unfold attempt, bind, os_path_exists, unlink, ret.
  destruct (bool_decide_reflect (name ∈ fs w)) as [Hin|Hout].
  - right. destruct (os_unlink E name _) as [e|] eqn:Hu.
    + right. split; [exact Hin|]. exists e. split; [reflexivity|].
      unfold log_event, with_fs. destruct (is_file_not_found e); cbn;
        now rewrite <- app_assoc.
    + left. split; [exact Hin|].
      unfold log_event, with_fs; cbn. now rewrite <- app_assoc.
  - left. split; [exact Hout | reflexivity].
Qed.

(** One round of the loop. *)
Lemma delete_loop_step (name : string) (i : nat) (rest : list nat) (w : world) :
  delete_loop E name (i :: rest) w =
    match attempt E name w with
    | (Return _, w1) => (Return tt, w1)
    | (Raise (PermissionError _), w1) =>
        ((if (i <? max_retries - 1)%nat
          then time_sleep 100
          else print E ("Warning: Could not delete temporary file: " +:+ name)) ;;;
         delete_loop E name rest) w1
    | (Raise e, w1) => (Raise e, w1)
    end.
Proof.
  cbn [delete_loop]. destruct (attempt E name w) as [[[]|[s dt|m|c m]] w1];
    reflexivity.
Qed.

(** A call of [print], as the host answers it. *)
Lemma print_cases (line : string) (w : world) :
  print E line w = (Return tt, log_event (EvPrint line) w)
  \/ exists e,
       stdout_print E line w = Some e /\
       print E line w = (Raise e, log_event (EvPrintFailed line e) w).
Proof.
  unfold print. destruct (stdout_print E line w) as [e|]; eauto.
Qed.

(** The five ends of the loop over the last [S n] indices of
    [range(max_retries)]: no file to delete; the file removed; every attempt
    failed on a lock and the warning of line 95 is printed; the same and
    that [print] raises; an attempt failed otherwise, and the loop raises
    before any [print]. *)
Lemma delete_loop_runs (name : string) (n : nat) :
  forall (k : nat) (w : world),
    (k + S n)%nat = max_retries ->
    exists o files d,
      delete_loop E name (seq k (S n)) w
        = (o, World (registry w) files (trace w ++ d)) /\
      forallb cleanup_event d = true /\
      (((name ∉ fs w) /\ o = Return tt /\ files = fs w /\
        d = [EvExists name false])
       \/ (name ∈ fs w /\ o = Return tt /\ files = fs w ∖ {[name]} /\
           release_policy name (S n) d /\ prints d = [] /\
           last (unlinks d) = Some None)
       \/ (name ∈ fs w /\ o = Return tt /\ files = fs w /\
           release_policy name (S n) d /\
           List.length (unlinks d) = S n /\
           forallb permission_failure (unlinks d) = true /\
           exists d0,
             d = d0 ++ [EvPrint ("Warning: Could not delete temporary file: " +:+ name)] /\
             prints d0 = [])
       \/ (name ∈ fs w /\ files = fs w /\
           List.length (unlinks d) = S n /\
           forallb permission_failure (unlinks d) = true /\
           exists e' d0 w0,
             o = Raise e' /\
             d = d0 ++ [EvPrintFailed
                          ("Warning: Could not delete temporary file: " +:+ name) e'] /\
             prints d0 = [] /\
             release_policy name (S n)
               (d0 ++ [EvPrint ("Warning: Could not delete temporary file: " +:+ name)]) /\
             stdout_print E ("Warning: Could not delete temporary file: " +:+ name) w0
               = Some e')
       \/ (name ∈ fs w /\ prints d = [] /\
           exists e,
             o = Raise e /\ is_permission_error e = false /\
             files = (if is_file_not_found e then fs w ∖ {[name]} else fs w) /\
             last (unlinks d) = Some (Some e) /\
             forall line, release_policy name (S n) (d ++ [EvPrint line]))).
Proof.
  induction n as [|n IH]; intros k w Hk; cbn [seq];
    rewrite delete_loop_step;
    destruct (attempt_cases name w) as [[Hout ->]|[[Hin ->]|(Hin & e & _ & ->)]].
  - eexists _, _, [_]. split; [reflexivity|]. split; [reflexivity|]. left. auto.
  - eexists _, _, _. split; [reflexivity|]. split; [reflexivity|].
    right; left. repeat split; auto. constructor.
  - (* the last index: no wait, the warning of line 95 instead *)
    destruct e as [s dt|m|c m].
    + eexists _, _, _. split; [reflexivity|]. split; [reflexivity|].
      do 4 right. split; [exact Hin|]. split; [reflexivity|].
      eexists. repeat split. intros line. now apply policy_abort.
    + assert ((k <? max_retries - 1)%nat = false) as ->
        by (apply Nat.ltb_ge; unfold max_retries in *; lia).
      unfold bind. cbn [is_file_not_found].
      match goal with
      | |- context [print E ?l ?w1] =>
          destruct (print_cases l w1) as [->|(e' & Hp & ->)]
      end.
      * cbn [delete_loop]. unfold ret, log_event. cbn [registry fs trace].
        rewrite <- app_assoc; cbn [app].
        eexists _, _, _. split; [reflexivity|]. split; [reflexivity|].
        right; right; left. split; [exact Hin|]. do 2 (split; [reflexivity|]).
        split; [now apply policy_exhausted|]. do 2 (split; [reflexivity|]).
        exists [EvExists name true; EvUnlink name (Some (PermissionError m))].
        split; reflexivity.
      * unfold log_event. cbn [registry fs trace].
        rewrite <- app_assoc; cbn [app].
        eexists _, _, _. split; [reflexivity|]. split; [reflexivity|].
        do 3 right; left. split; [exact Hin|]. do 3 (split; [reflexivity|]).
        eexists e', [EvExists name true; EvUnlink name (Some (PermissionError m))], _.
        split; [reflexivity|]. split; [reflexivity|]. split; [reflexivity|].
        split; [now apply policy_exhausted | exact Hp].
    + eexists _, _, _. split; [reflexivity|]. split; [reflexivity|].
      do 4 right. split; [exact Hin|]. split; [reflexivity|].
      eexists. repeat split. intros line. now apply policy_abort.
  - eexists _, _, [_]. split; [reflexivity|]. split; [reflexivity|]. left. auto.
  - eexists _, _, _. split; [reflexivity|]. split; [reflexivity|].
    right; left. repeat split; auto. constructor.
  - destruct e as [s dt|m|c m].
    + eexists _, _, _. split; [reflexivity|]. split; [reflexivity|].
      do 4 right. split; [exact Hin|]. split; [reflexivity|].
      eexists. repeat split. intros line. now apply policy_abort.
    + assert ((k <? max_retries - 1)%nat = true) as ->
        by (apply Nat.ltb_lt; unfold max_retries in *; lia).
      unfold bind at 1. unfold time_sleep, emit. cbn [is_file_not_found].
      match goal with
      | |- context [delete_loop E name _ ?w1] =>
          destruct (IH (S k) w1 ltac:(lia)) as (o & files & d & Heq & Hev & Hcases)
      end.
      cbn [seq] in Heq. rewrite Heq. clear Heq.
      unfold log_event in *. cbn [registry fs trace] in *.
      rewrite <- !app_assoc; cbn [app].
      eexists o, files, _. split; [reflexivity|].
      split; [cbn; exact Hev|].
      destruct Hcases
        as [(Hout & _)
           |[(_ & -> & -> & Hpol & Hpr & Hl)
            |[(_ & -> & -> & Hpol & Hlen & Hall & d0 & -> & Hpr)
             |[(_ & -> & Hlen & Hall & e' & d0 & w0 & -> & -> & Hpr & Hpol & Hp)
              |(_ & Hpr & e & -> & He & -> & Hl & Hpol)]]]].
      * contradiction.
      * right; left. split; [exact Hin|]. do 2 (split; [reflexivity|]).
        split; [apply policy_retry; [reflexivity | exact Hpol]|].
        split; [exact Hpr|]. cbn [unlinks].
        destruct (unlinks d); [discriminate Hl | exact Hl].
      * right; right; left. split; [exact Hin|]. do 2 (split; [reflexivity|]).
        split; [apply policy_retry; [reflexivity | exact Hpol]|].
        cbn [unlinks List.length forallb permission_failure is_permission_error andb].
        split; [now rewrite Hlen|]. split; [exact Hall|].
        exists (EvExists name true :: EvUnlink name (Some (PermissionError m))
                  :: EvSleep 100 :: d0).
        split; [reflexivity | exact Hpr].
      * do 3 right; left. split; [exact Hin|]. split; [reflexivity|].
        cbn [unlinks List.length forallb permission_failure is_permission_error andb].
        split; [now rewrite Hlen|]. split; [exact Hall|].
        exists e', (EvExists name true :: EvUnlink name (Some (PermissionError m))
                      :: EvSleep 100 :: d0), w0.
        split; [reflexivity|]. split; [reflexivity|]. split; [exact Hpr|].
        split; [|exact Hp]. cbn [app]. apply policy_retry; [reflexivity | exact Hpol].
      * do 4 right. split; [exact Hin|]. split; [exact Hpr|].
        exists e. split; [reflexivity|]. split; [exact He|]. split; [reflexivity|].
        split.
        -- cbn [unlinks]. destruct (unlinks d); [discriminate Hl | exact Hl].
        -- intros line. cbn [app]. apply policy_retry; [reflexivity | apply Hpol].
    + eexists _, _, _. split; [reflexivity|]. split; [reflexivity|].
      do 4 right. split; [exact Hin|]. split; [reflexivity|].
      eexists. repeat split. intros line. now apply policy_abort.
Qed.

Lemma no_prints_no_error (d : list event) :
  prints d = [] -> cleanup_error d = None.
Proof.
  intros Hp. unfold cleanup_error. destruct (last d) as [ev|] eqn:Hl; [|reflexivity].
  apply last_Some in Hl as [d0 ->]. rewrite prints_app in Hp.
  apply app_eq_nil in Hp as [_ Hp]. now destruct ev.
Qed.

Lemma locked_out_some (l : list (option exn)) (n : nat) :
  List.length l = S n -> forallb permission_failure l = true ->
  exists e, In (Some e) l.
Proof.
  destruct l as [|[e|] l]; try discriminate. intros _ _. exists e. now left.
Qed.

Lemma last_In {A} (l : list A) (x : A) : last l = Some x -> In x l.
Proof.
  intros [l0 ->]%last_Some. apply in_or_app. right. now left.
Qed.

(** The cleanup block, whatever the host does: see [cleanup_digest]. *)
Lemma release_digest (name : string) (w : world) :
  exists o files d,
    release E name w = (o, World (registry w) files (trace w ++ d)) /\
    cleanup_digest E name (fs w) o files d.
Proof.
  unfold release, try_except.
  destruct (delete_loop_runs name 2 0 w eq_refl) as (o & files & d & Heq & Hev & Hcases).
  change (seq 0 3) with (seq 0 max_retries) in Heq. rewrite Heq. clear Heq.
  unfold cleanup_digest, deletion_exhausted. change max_retries with 3%nat in *.
  destruct Hcases
    as [(Hout & -> & -> & ->)
       |[(Hin & -> & -> & Hpol & Hpr & Hl)
        |[(Hin & -> & -> & Hpol & Hlen & Hall & d0 & -> & Hpr)
         |[(Hin & -> & Hlen & Hall & e' & d0 & w0 & -> & -> & Hpr & Hpol & Hp)
          |(Hin & Hpr & e & -> & He & -> & Hl & Hpol)]]]].
  - (* no file *)
    eexists _, _, _. split; [reflexivity|].
    split; [constructor|]. split; [reflexivity|]. split; [now left|].
    split; [now left|]. split; [now left|]. split; [intros H; now destruct H|].
    split; [constructor|]. split; [reflexivity | reflexivity].
  - (* removed *)
    destruct (no_prints d Hpr) as (Hw & Hf & Ha & _).
    eexists _, _, _. split; [reflexivity|].
    rewrite Ha, (no_prints_no_error d Hpr), Hw, Hf, Hpr.
    split; [exact Hpol|]. split; [reflexivity|]. split; [now right|].
    split; [left; apply not_elem_of_removed|]. split; [now left|].
    split; [intros H; now destruct H|]. split; [constructor|].
    split; [intros Hout; contradiction | exact Hev].
  - (* locked out, warned *)
    destruct (no_prints d0 Hpr) as (Hw & Hf & _ & _).
    eexists _, _, _. split; [reflexivity|].
    rewrite (as_printed_app d0 _ Hpr), cleanup_error_snoc, warnings_app,
      print_failures_app, Hw, Hf. cbn [as_printed warnings print_failures app].
    split; [exact Hpol|]. split; [reflexivity|]. split; [now left|].
    split; [right; split; [now left | left; discriminate]|].
    split; [right; now left|].
    split; [intros _; exact (locked_out_some _ _ Hlen Hall)|].
    split; [constructor|]. split; [intros Hout; contradiction | exact Hev].
  - (* locked out, and the warning of line 95 not printed *)
    destruct (no_prints d0 Hpr) as (Hw & Hf & _ & _).
    match goal with
    | |- context [print E ?l ?w1] =>
        destruct (print_cases l w1) as [->|(e'' & Hp2 & ->)]
    end; unfold log_event; cbn [registry fs trace];
      rewrite <- !app_assoc; cbn [app];
      eexists _, _, _; (split; [reflexivity|]);
      rewrite (as_printed_app d0 _ Hpr);
      match goal with
      | |- context [cleanup_error (d0 ++ [?a; ?b])] =>
          change (d0 ++ [a; b]) with (d0 ++ [a] ++ [b]);
          rewrite (app_assoc d0 [a] [b]), cleanup_error_snoc,
            <- (app_assoc d0 [a] [b])
      end;
      rewrite !warnings_app, !print_failures_app, !unlinks_app, Hw, Hf;
      rewrite unlinks_app in Hlen, Hall; cbn [unlinks app] in Hlen, Hall;
      rewrite app_nil_r in Hlen, Hall;
      cbn [as_printed warnings print_failures unlinks app List.filter is_print negb];
      rewrite ?app_nil_r.
    + split; [exact Hpol|]. split; [reflexivity|]. split; [now left|].
      split; [right; split; [left; auto | left; discriminate]|].
      split; [right; right; now exists e'|].
      split; [intros _; exact (locked_out_some _ _ Hlen Hall)|].
      split; [repeat constructor; now exists w0|].
      split; [intros Hout; contradiction|].
      rewrite (forallb_app cleanup_event) in Hev |- *.
      now apply andb_true_iff in Hev as [-> _].
    + split; [exact Hpol|]. split; [reflexivity|]. split; [now left|].
      split; [right; split; [left; auto | right; eauto]|].
      split; [now left|].
      split; [intros _; exact (locked_out_some _ _ Hlen Hall)|].
      split; [repeat constructor; cbn [fst snd]; eauto|].
      split; [intros Hout; contradiction|].
      rewrite (forallb_app cleanup_event) in Hev |- *.
      now apply andb_true_iff in Hev as [-> _].
  - (* another failure than a lock *)
    destruct (no_prints d Hpr) as (Hw & Hf & _ & _).
    match goal with
    | |- context [print E ?l ?w1] =>
        destruct (print_cases l w1) as [->|(e'' & Hp2 & ->)]
    end; unfold log_event; cbn [registry fs trace];
      rewrite <- !app_assoc;
      eexists _, _, _; (split; [reflexivity|]);
      rewrite (as_printed_app d _ Hpr), cleanup_error_snoc, warnings_app,
        print_failures_app, unlinks_app, prints_app, Hw, Hf,
        (forallb_app cleanup_event), Hev;
      cbn [as_printed warnings print_failures unlinks app List.filter is_print negb
           forallb cleanup_event andb];
      rewrite app_nil_r.
    + split; [apply Hpol|]. split; [reflexivity|].
      split; [destruct (is_file_not_found e); auto|].
      split; [right; split; [right; eauto | left; discriminate]|].
      split; [right; right; now exists e|].
      split; [intros _; exists e; exact (last_In _ _ Hl)|].
      split; [constructor|]. split; [intros Hout; contradiction | reflexivity].
    + split; [apply Hpol|]. split; [reflexivity|].
      split; [destruct (is_file_not_found e); auto|].
      split; [right; split; [right; eauto | right; eauto]|].
      split; [now left|].
      split; [intros _; exists e; exact (last_In _ _ Hl)|].
      split; [repeat constructor; cbn [fst snd]; eauto|].
      split; [intros Hout; contradiction | reflexivity].
Qed.

(** When the scratch file is gone already, one check and nothing else. *)
Lemma release_absent (name : string) (w : world) :
  name ∉ fs w ->
  release E name w = (Return tt, log_event (EvExists name false) w).
Proof.
  intros Hout. unfold release, try_except, max_retries. cbn [seq].
  rewrite delete_loop_step.
  destruct (attempt_cases name w) as [[_ ->]|[[Hin _]|(Hin & _)]];
    [reflexivity | contradiction..].
Qed.

(** With an [os.unlink] that never fails, the cleanup block is one attempt. *)
Lemma release_unlocked (name : string) (w : world) :
  (forall w0, os_unlink E name w0 = None) ->
  release E name w
    = (Return tt,
       if bool_decide (name ∈ fs w)
       then World (registry w) (fs w ∖ {[name]})
              (trace w ++ [EvExists name true; EvUnlink name None])
       else log_event (EvExists name false) w).
Proof.
  intros Hok. unfold release, try_except, max_retries. cbn [seq].
  rewrite delete_loop_step.
  destruct (attempt_cases name w)
    as [[Hout ->]|[(Hin & ->)|(Hin & e & Hu & ->)]].
  - now rewrite bool_decide_false.
  - now rewrite bool_decide_true.
  - rewrite Hok in Hu. discriminate Hu.
Qed.

End Cleanup.

(** ** The handler *)

Section Handler.

Context {content : Type}.
Variable E : Env content.

(** The three ways through the block of the outer [try]. *)
Lemma parse_document_try_unsupported (file : UploadFile) (w : world) :
  PyDict.contains (extension file) (registry w) = false ->
  parse_document_try E file w
    = (Raise (HTTPException 400
                (unsupported_detail (extension file) (PyDict.keys (registry w)))),
       w).
Proof.
  intros H. unfold parse_document_try, bind, registry_contains.
  rewrite H. reflexivity.
Qed.

Lemma parse_document_try_no_file (file : UploadFile) (w : world) (e : exn) :
  PyDict.contains (extension file) (registry w) = true ->
  NamedTemporaryFile E (extension file) w = inl e ->
  parse_document_try E file w = (Raise e, w).
Proof.
  intros H Ht. unfold parse_document_try, bind, registry_contains, new_temp_file.
  rewrite H. cbn. rewrite Ht. reflexivity.
Qed.

(** With the scratch file made: lines 71-80, then the cleanup block, which
    has the last word on the world, and on the outcome when it raises. *)
Lemma parse_document_try_staging (file : UploadFile) (w : world) (name : string) :
  PyDict.contains (extension file) (registry w) = true ->
  NamedTemporaryFile E (extension file) w = inr name ->
  parse_document_try E file w
    = let staged := stage_and_parse E file (extension file) name
                      (world_created name w) in
      let released := release E name (snd staged) in
      (match fst released with
       | Return _ => fst staged
       | Raise e => Raise e
       end,
       snd released).
Proof.
  intros H Ht. unfold parse_document_try, bind, registry_contains, new_temp_file.
  rewrite H. cbn -[release stage_and_parse]. rewrite Ht.
  unfold try_finally. fold (world_created name w).
  destruct (stage_and_parse E file (extension file) name (world_created name w))
    as [o1 w1]. cbn [fst snd].
  destruct (release E name w1) as [[[]|e] w2]; reflexivity.
Qed.

(** The outer [except]: what the block returns is returned, what it raises
    is raised again as a 500. *)
Lemma parse_document_surfaced (file : UploadFile) (w : world) :
  parse_document E file w
    = (surfaced E (fst (parse_document_try E file w)),
       snd (parse_document_try E file w)).
Proof.
  unfold parse_document, try_except.
  destruct (parse_document_try E file w) as [[v|e] w1]; reflexivity.
Qed.

(** What lines 71-79 do, however far they get: nothing but staging events;
    a value returned is the success body; and a parser is touched only
    once the upload is read, written, flushed and closed. *)
Lemma stage_and_parse_events (file : UploadFile) (suffix name : string) (w : world) :
  exists o files d,
    stage_and_parse E file suffix name w
      = (o, World (registry w) files (trace w ++ d)) /\
    forallb staging_event d = true /\
    (forall v, o = Return v ->
       exists result, v = [("status", VStr "success"); ("content", VContent result)]) /\
    (existsb parser_event d = true ->
       exists data cls,
         read file = inr data /\ PyDict.get suffix (registry w) = Some cls /\
         (d = [EvRead; EvWrite name data; EvFlush name; EvClose name;
               EvConstruct cls]
          \/ d = [EvRead; EvWrite name data; EvFlush name; EvClose name;
                  EvConstruct cls; EvParse cls name])).
Proof.
  destruct w as [reg files tr].
  unfold stage_and_parse, bind, file_read, write, flush, close, call,
    registry_getitem, construct, parse, ret, log_event, with_fs.
  cbn [registry fs trace].
  repeat (case_match; simplify_eq/=);
    rewrite <- ?app_assoc; cbn [app];
    eexists _, _, _; (split; [reflexivity|]); cbn;
    (split; [reflexivity|]);
    (split; [intros v Hv; simplify_eq; eauto|]);
    intros Hp; try discriminate Hp; eauto 10.
Qed.

Lemma policy_nonempty (name : string) (n : nat) (d : list event) :
  release_policy name n (as_printed d) -> d <> [].
Proof. intros H ->. inversion H. Qed.

Lemma cleanup_error_app (d1 d2 : list event) :
  d2 <> [] -> cleanup_error (d1 ++ d2) = cleanup_error d2.
Proof.
  intros H. unfold cleanup_error.
  destruct d2 as [|ev d2] using rev_ind; [congruence|].
  now rewrite app_assoc, !last_snoc.
Qed.

(** The events of a request that got its scratch file, seen as a whole:
    what the observations say of them is what they say of the staging
    events [d1] and of the cleanup events [d2]. *)
Lemma request_events (name : string) (d1 d2 : list event) :
  forallb staging_event d1 = true ->
  forallb cleanup_event d2 = true ->
  d2 <> [] ->
  created (EvCreate name :: d1 ++ d2) = [name] /\
  unlinks (EvCreate name :: d1 ++ d2) = unlinks d2 /\
  warnings (EvCreate name :: d1 ++ d2) = warnings d2 /\
  print_failures (EvCreate name :: d1 ++ d2) = print_failures d2 /\
  attempts (EvCreate name :: d1 ++ d2) = attempts d2 /\
  sleeps (EvCreate name :: d1 ++ d2) = sleeps d2 /\
  cleanup_error (EvCreate name :: d1 ++ d2) = cleanup_error d2 /\
  parsed (EvCreate name :: d1 ++ d2) = parsed d1 /\
  existsb parser_event (EvCreate name :: d1 ++ d2) = existsb parser_event d1.
Proof.
  intros H1 H2 Hne.
  destruct (staging_events_quiet d1 H1) as (Hw & Hs & Hc & Hu & Ha & Hf & _).
  destruct (cleanup_events_quiet d2 H2) as (Hc2 & Hp2 & He2).
  cbn [created unlinks warnings print_failures attempts sleeps parsed existsb
       parser_event orb].
  rewrite created_app, unlinks_app, warnings_app, print_failures_app, attempts_app,
    sleeps_app, parsed_app, existsb_app, Hw, Hs, Hc, Hu, Ha, Hf, Hc2, Hp2, He2.
  rewrite app_nil_r, orb_false_r.
  repeat split; try reflexivity; try (now rewrite app_nil_r).
  all: change (EvCreate name :: d1 ++ d2) with ((EvCreate name :: d1) ++ d2).
  all: now apply cleanup_error_app.
Qed.

(** A request that got its scratch file, from line 71 to the response. *)
Lemma staged_request_runs (file : UploadFile) (w : world) (name : string) :
  PyDict.contains (extension file) (registry w) = true ->
  NamedTemporaryFile E (extension file) w = inr name ->
  exists o1 files1 d1 o2 files2 d2,
    stage_and_parse E file (extension file) name (world_created name w)
      = (o1, World (registry w) files1 (trace w ++ EvCreate name :: d1)) /\
    forallb staging_event d1 = true /\
    (forall v, o1 = Return v ->
       exists result, v = [("status", VStr "success"); ("content", VContent result)]) /\
    (existsb parser_event d1 = true ->
       exists data cls,
         read file = inr data /\
         PyDict.get (extension file) (registry w) = Some cls /\
         (d1 = [EvRead; EvWrite name data; EvFlush name; EvClose name;
                EvConstruct cls]
          \/ d1 = [EvRead; EvWrite name data; EvFlush name; EvClose name;
                   EvConstruct cls; EvParse cls name])) /\
    cleanup_digest E name files1 o2 files2 d2 /\
    d2 <> [] /\
    parse_document E file w
      = (surfaced E (match cleanup_error (EvCreate name :: d1 ++ d2) with
                     | None => o1
                     | Some e => Raise e
                     end),
         World (registry w) files2 (trace w ++ EvCreate name :: d1 ++ d2)).
Proof.
  intros Hk Ht.
  destruct (stage_and_parse_events file (extension file) name (world_created name w))
    as (o1 & files1 & d1 & Heq & Hq & Hv & Hp).
  assert (World (registry (world_created name w)) files1
            (trace (world_created name w) ++ d1)
          = World (registry w) files1 (trace w ++ EvCreate name :: d1)) as Hw
    by (cbn; now rewrite <- app_assoc).
  rewrite Hw in Heq. clear Hw.
  destruct (release_digest E name
              (World (registry w) files1 (trace w ++ EvCreate name :: d1)))
    as (o2 & files2 & d2 & Hrel & Hdig).
  cbn [registry fs trace] in Hrel, Hdig.
  assert (d2 <> []) as Hne by (destruct Hdig as [Hpol _]; exact (policy_nonempty _ _ _ Hpol)).
  exists o1, files1, d1, o2, files2, d2.
  split; [exact Heq|]. split; [exact Hq|]. split; [exact Hv|]. split; [exact Hp|].
  split; [exact Hdig|]. split; [exact Hne|].
  rewrite parse_document_surfaced, (parse_document_try_staging file w name Hk Ht).
  cbv zeta. rewrite Heq. cbn [fst snd]. rewrite Hrel. cbn [fst snd].
  destruct Hdig as (_ & Ho & _ & _ & _ & _ & _ & _ & Hev).
  destruct (request_events name d1 d2 Hq Hev Hne) as (_ & _ & _ & _ & _ & _ & -> & _).
  rewrite <- app_assoc. cbn [app].
  rewrite Ho. now destruct (cleanup_error d2).
Qed.

(** Neither handler assigns the module global. *)
Lemma parse_document_registry (file : UploadFile) (w : world) :
  registry (snd (parse_document E file w)) = registry w.
Proof.
  destruct (PyDict.contains (extension file) (registry w)) eqn:Hk.
  - destruct (NamedTemporaryFile E (extension file) w) as [e|name] eqn:Ht.
    + now rewrite parse_document_surfaced, (parse_document_try_no_file _ _ _ Hk Ht).
    + destruct (staged_request_runs file w name Hk Ht)
        as (o1 & files1 & d1 & o2 & files2 & d2 & _ & _ & _ & _ & _ & _ & ->).
      reflexivity.
  - now rewrite parse_document_surfaced, (parse_document_try_unsupported _ _ Hk).
Qed.

Lemma handle_registry (r : request) (w : world) :
  registry (snd (handle E r w)) = registry w.
Proof.
  destruct r as [file|]; cbn [handle].
  - pose proof (parse_document_registry file w) as H.
    destruct (parse_document E file w) as [o w1]. exact H.
  - reflexivity.
Qed.

Lemma serve_registry (rs : list request) (w : world) :
  registry (snd (serve E rs w)) = registry w.
Proof.
  revert w. induction rs as [|r rs IH]; intros w; cbn [serve]; [reflexivity|].
  pose proof (handle_registry r w) as Hr.
  destruct (handle E r w) as [x w1]. cbn [snd] in Hr.
  specialize (IH w1). destruct (serve E rs w1) as [xs w2]. cbn [snd] in *.
  congruence.
Qed.

End Handler.

(** ** Staging and parsing *)

Section Staging.

Context {content : Type}.
Variable E : Env content.




(** What the cleanup block raises is what a [print] of this host raised,
    after an [os.unlink] that failed. *)
Lemma cleanup_error_cause (name : string) (before files : gset string)
    (o : outcome unit) (d : list event) (e : exn) :
  cleanup_digest E name before o files d ->
  cleanup_error d = Some e ->
  (exists line w0, stdout_print E line w0 = Some e) /\
  exists e0, In (Some e0) (unlinks d).
Proof.
  intros (_ & _ & _ & _ & _ & Hpr & Hall & _) He.
  destruct (cleanup_error_In d e He) as [line Hin]. split.
  - rewrite List.Forall_forall in Hall. destruct (Hall _ Hin) as [w0 Hw0].
    now exists line, w0.
  - apply Hpr. intros Hnil. destruct (no_prints d Hnil) as (_ & Hf & _).
    rewrite Hf in Hin. contradiction.
Qed.

End Staging.
(** ** The unsupported-format path *)

(** Whatever [str()] of an [HTTPException] is, the 400 raised at line 62 is
    caught by the [except Exception] of line 99 and leaves as a 500. *)
Lemma unsupported_is_surfaced_as_500 {content} (E : Env content)
    (file : UploadFile) (w : world) :
  PyDict.contains (extension file) (registry w) = false ->
  parse_document E file w
    = (Raise (HTTPException 500
                ("Error processing file: " +:+
                 str_HTTPException E 400
                   (unsupported_detail (extension file) (PyDict.keys (registry w))))),
       w).
Proof.
  intros H. rewrite parse_document_surfaced.
  now rewrite (parse_document_try_unsupported E file w H).
Qed.

(** C1. The upload of [notes.xyz], whose extension is not registered, is
    answered with status 500 and the detail of the inner 400 wrapped in
    ["Error processing file: "], not with status 400 and the detail
    ["Unsupported file type: .xyz. Supported types are: ..."]: the
    [HTTPException] of line 62 is raised inside the [try] whose
    [except Exception] of line 99 catches it. *)
Theorem unsupported_upload_answered_500 :
  respond (fst (parse_document healthy_env (upload "notes.xyz" "hello")
                  (initial_world ∅)))
    = Response 500
        [("detail",
          VStr ("Error processing file: 400: Unsupported file type: .xyz. "
                +:+ "Supported types are: .pdf, .docx, .xlsx, .xls, .pptx, "
                +:+ ".ppt, .html, .json, .md, .txt"))]
  /\ ~ unsupported_format_response healthy_env (upload "notes.xyz" "hello")
         (initial_world ∅).
Proof.
  split; [reflexivity|].
  unfold unsupported_format_response.
  rewrite (unsupported_is_surfaced_as_500 healthy_env
             (upload "notes.xyz" "hello") (initial_world ∅) eq_refl).
  cbn [fst respond]. intros H. inversion H.
Qed.

(** C7. An upload whose extension is not registered leaves the world as it
    was: the check of line 61 raises before line 68, so that no scratch
    file is made, no file appears or disappears, and no effect is traced. *)
Theorem unsupported_makes_no_scratch_file {content} (E : Env content)
    (file : UploadFile) (w : world) :
  PyDict.contains (extension file) (registry w) = false ->
  snd (parse_document E file w) = w /\
  created (trace (snd (parse_document E file w))) = created (trace w) /\
  fs (snd (parse_document E file w)) = fs w.
Proof.
  intros H. rewrite (unsupported_is_surfaced_as_500 E file w H). auto.
Qed.

Lemma unsupported_makes_no_scratch_file_witness :
  PyDict.contains (extension (upload "notes.xyz" "hello"))
    (registry (initial_world ∅)) = false /\
  snd (parse_document healthy_env (upload "notes.xyz" "hello") (initial_world ∅))
    = initial_world ∅.
Proof.
  split; [reflexivity|].
  apply (unsupported_makes_no_scratch_file healthy_env
           (upload "notes.xyz" "hello") (initial_world ∅)).
  reflexivity.
Defined.

(** C10. A file name without a dot has the empty suffix, which is no key of
    the registry: the block of the [try] raises the [HTTPException] of line
    62 with the empty string as the extension reported, and the handler
    leaves the world as it was, with no file staged and no parser called. *)
Theorem no_dot_takes_unsupported_path {content} (E : Env content)
    (file : UploadFile) (w : world) :
  PyStr.contains_char PyPath.dot (filename file) = false ->
  registry w = PARSER_MAP ->
  extension file = "" /\
  PyDict.contains "" (registry w) = false /\
  parse_document_try E file w
    = (Raise (HTTPException 400
                ("Unsupported file type: . Supported types are: "
                 +:+ ".pdf, .docx, .xlsx, .xls, .pptx, .ppt, .html, .json, .md, .txt")),
       w) /\
  snd (parse_document E file w) = w /\
  created (trace (snd (parse_document E file w))) = created (trace w) /\
  parsed (trace (snd (parse_document E file w))) = parsed (trace w).
Proof.
  intros Hdot Hreg.
  assert (extension file = "") as Hext
    by (unfold extension; now rewrite (suffix_no_dot _ Hdot)).
  assert (PyDict.contains (extension file) (registry w) = false) as Hk
    by (now rewrite Hext, Hreg).
  split; [exact Hext|]. split; [now rewrite Hreg|]. split.
  - rewrite (parse_document_try_unsupported E file w Hk), Hext, Hreg. reflexivity.
  - rewrite (unsupported_is_surfaced_as_500 E file w Hk). auto.
Qed.

Lemma no_dot_takes_unsupported_path_witness :
  PyStr.contains_char PyPath.dot (filename (upload "README" "hello")) = false /\
  extension (upload "README" "hello") = "" /\
  snd (parse_document healthy_env (upload "README" "hello") (initial_world ∅))
    = initial_world ∅.
Proof.
  split; [reflexivity|].
  pose proof (no_dot_takes_unsupported_path healthy_env (upload "README" "hello")
                (initial_world ∅) eq_refl eq_refl) as (He & _ & _ & Hw & _).
  split; [exact He | exact Hw].
Defined.

(** ** Dispatch *)



(** ** The success path *)




(** ** The deletion policy of the cleanup block *)

Lemma list_sum_repeat (a n : nat) : list_sum (repeat a n) = (n * a)%nat.
Proof. induction n as [|n IH]; simpl; [reflexivity | now rewrite IH]. Qed.

(** C3. The cleanup block follows the deletion policy with three attempts.
    Its events [d] are those of [release_policy name 3], as they are where
    no [print] raised, and with a warning that could not be printed counted
    as printed where one did; it makes at most 3 attempts and at most 3
    calls of [os.unlink]; it waits 100ms once between two attempts and at no
    other time, at most 300ms in all; an [os.unlink] that is followed by
    another failed with a [PermissionError]; and after a failure of any
    other class nothing follows but one warning. *)
Theorem release_retry_policy {content} (E : Env content)
    (name : string) (w : world) :
  exists d,
    trace (snd (release E name w)) = trace w ++ d /\
    release_policy name 3 (as_printed d) /\
    (print_failures d = [] -> release_policy name 3 d) /\
    (attempts d <= 3)%nat /\
    (List.length (unlinks d) <= 3)%nat /\
    sleeps d = repeat 100%nat (attempts d - 1) /\
    (list_sum (sleeps d) <= 300)%nat /\
    Forall (fun r => permission_failure r = true) (removelast (unlinks d)) /\
    (forall d1 e d2,
       as_printed d = d1 ++ EvUnlink name (Some e) :: d2 ->
       is_permission_error e = false ->
       exists line, d2 = [EvPrint line]).
Proof.
  destruct (release_digest E name w) as (o & files & d & -> & Hpol & _).
  change max_retries with 3%nat in Hpol.
  pose proof (policy_attempts name 3 _ Hpol) as Ha.
  pose proof (policy_unlinks name 3 _ Hpol) as Hu.
  pose proof (policy_sleeps name 3 _ Hpol) as Hs.
  pose proof (policy_retries name 3 _ Hpol) as Hr.
  destruct (as_printed_keeps d) as (Hku & Hka & Hks).
  rewrite Hku, Hka in *. rewrite Hks in Hs.
  exists d. cbn [snd trace].
  split; [reflexivity|]. split; [exact Hpol|].
  split; [intros Hf; now rewrite (as_printed_id d Hf) in Hpol|].
  split; [lia|]. split; [lia|].
  split; [exact Hs|]. split; [rewrite Hs, list_sum_repeat; lia|].
  split; [exact Hr|].
  intros d1 e d2 Hd He. rewrite Hd in Hpol.
  exact (policy_abort_last name 3 d1 d2 e Hpol He).
Qed.

(** The file stays locked: three attempts, two waits, one warning. *)
Example release_locked :
  trace (snd (release (with_unlink locked healthy_env) "/tmp/t.pdf"
                (World PARSER_MAP {["/tmp/t.pdf"]} [])))
    = [EvExists "/tmp/t.pdf" true;
       EvUnlink "/tmp/t.pdf" (locked "/tmp/t.pdf" (initial_world ∅));
       EvSleep 100;
       EvExists "/tmp/t.pdf" true;
       EvUnlink "/tmp/t.pdf" (locked "/tmp/t.pdf" (initial_world ∅));
       EvSleep 100;
       EvExists "/tmp/t.pdf" true;
       EvUnlink "/tmp/t.pdf" (locked "/tmp/t.pdf" (initial_world ∅));
       EvPrint "Warning: Could not delete temporary file: /tmp/t.pdf"].
Proof. reflexivity. Qed.

(** The lock is gone at the third attempt: the file is removed, no warning. *)
Example release_locked_twice :
  trace (snd (release (with_unlink locked_twice healthy_env) "/tmp/t.pdf"
                (World PARSER_MAP {["/tmp/t.pdf"]} [])))
    = [EvExists "/tmp/t.pdf" true;
       EvUnlink "/tmp/t.pdf" (locked "/tmp/t.pdf" (initial_world ∅));
       EvSleep 100;
       EvExists "/tmp/t.pdf" true;
       EvUnlink "/tmp/t.pdf" (locked "/tmp/t.pdf" (initial_world ∅));
       EvSleep 100;
       EvExists "/tmp/t.pdf" true;
       EvUnlink "/tmp/t.pdf" None].
Proof. reflexivity. Qed.

(** Another failure than a lock: one attempt, no wait, the other warning. *)
Example release_read_only :
  trace (snd (release (with_unlink read_only healthy_env) "/tmp/t.pdf"
                (World PARSER_MAP {["/tmp/t.pdf"]} [])))
    = [EvExists "/tmp/t.pdf" true;
       EvUnlink "/tmp/t.pdf" (read_only "/tmp/t.pdf" (initial_world ∅));
       EvPrint ("Warning: Error while deleting temporary file: "
                +:+ "[Errno 30] Read-only file system: '/tmp/t.pdf'")].
Proof. reflexivity. Qed.

(** The file stays locked and the standard output is closed: the warning of
    line 95 raises, the handler of line 96 prints its own, which raises too,
    and the cleanup block raises. *)
Example release_locked_silent :
  release (with_stdout closed_stdout (with_unlink locked healthy_env)) "/tmp/t.pdf"
    (World PARSER_MAP {["/tmp/t.pdf"]} [])
    = (Raise (Error "ValueError" "I/O operation on closed file."),
       World PARSER_MAP {["/tmp/t.pdf"]}
         [EvExists "/tmp/t.pdf" true;
          EvUnlink "/tmp/t.pdf" (locked "/tmp/t.pdf" (initial_world ∅));
          EvSleep 100;
          EvExists "/tmp/t.pdf" true;
          EvUnlink "/tmp/t.pdf" (locked "/tmp/t.pdf" (initial_world ∅));
          EvSleep 100;
          EvExists "/tmp/t.pdf" true;
          EvUnlink "/tmp/t.pdf" (locked "/tmp/t.pdf" (initial_world ∅));
          EvPrintFailed "Warning: Could not delete temporary file: /tmp/t.pdf"
            (Error "ValueError" "I/O operation on closed file.");
          EvPrintFailed
            ("Warning: Error while deleting temporary file: "
             +:+ "I/O operation on closed file.")
            (Error "ValueError" "I/O operation on closed file.")]).
Proof. reflexivity. Qed.

(** ** Cleanup and the response *)




(** ** The scratch file *)

(** C2, as stated, fails in two places. Where the scratch file cannot be
    made: the upload of [report.pdf] reaches line 68, [NamedTemporaryFile]
    raises, and the request ends with no scratch file made. Where the
    warning cannot be printed: the scratch file of [a.docx] stays locked at
    each of the three attempts, both warnings raise on a closed standard
    output, and the request ends with the file there and no warning logged. *)
Lemma one_scratch_file_released_counterexample :
  (PyDict.contains (extension (upload "report.pdf" "%PDF-1.7"))
     (registry (initial_world ∅)) = true /\
   created (trace (snd (parse_document full_disk_env
                          (upload "report.pdf" "%PDF-1.7") (initial_world ∅)))) = [] /\
   ~ one_scratch_file_released full_disk_env (upload "report.pdf" "%PDF-1.7")
       (initial_world ∅))
  /\
  (PyDict.contains (extension (upload "a.docx" "PK"))
     (registry (initial_world ∅)) = true /\
   created (trace (snd (parse_document silent_corrupt_env
                          (upload "a.docx" "PK") (initial_world ∅))))
     = ["/tmp/tmpk3x9.docx"] /\
   "/tmp/tmpk3x9.docx"
     ∈ fs (snd (parse_document silent_corrupt_env (upload "a.docx" "PK")
                  (initial_world ∅))) /\
   warnings (trace (snd (parse_document silent_corrupt_env
                           (upload "a.docx" "PK") (initial_world ∅)))) = [] /\
   ~ one_scratch_file_released silent_corrupt_env (upload "a.docx" "PK")
       (initial_world ∅)).
Proof.
  split.
  - split; [reflexivity|]. split; [reflexivity|].
    intros (name & d & Htr & Hc & _).
    change (trace _) with (@nil event) in Htr at 1. cbn in Htr. subst d.
    discriminate Hc.
  - assert ("/tmp/tmpk3x9.docx"
              ∈ fs (snd (parse_document silent_corrupt_env (upload "a.docx" "PK")
                           (initial_world ∅)))) as Hin.
    { change (fs _) with (∅ ∪ {["/tmp/tmpk3x9.docx"]} : gset string). set_solver. }
    split; [reflexivity|]. split; [reflexivity|]. split; [exact Hin|].
    split; [reflexivity|].
    intros (name & d & Htr & Hc & Hend).
    change (trace (initial_world ∅) ++ d) with d in Htr. subst d.
    injection Hc as <-.
    destruct Hend as [Hout|[_ Hw]]; [exact (Hout Hin) | now apply Hw].
Qed.

(** C2, amended. A request that reaches the staging step makes at most one
    scratch file. When [NamedTemporaryFile] returns, the request makes
    exactly that file, and completes with the file gone, or with its
    deletion attempted to exhaustion and a warning logged, unless the
    [print] of the warning raises, whatever happened in between; when
    [NamedTemporaryFile] raises, no file is made, no effect is traced, and
    the handler answers 500 with the message of that failure. *)
Theorem scratch_file_lifecycle {content} (E : Env content)
    (file : UploadFile) (w : world) :
  PyDict.contains (extension file) (registry w) = true ->
  let w' := snd (parse_document E file w) in
  exists d,
    trace w' = trace w ++ d /\
    match NamedTemporaryFile E (extension file) w with
    | inr name =>
        created d = [name] /\
        ((name ∉ fs w')
         \/ (deletion_exhausted d /\
             (warnings d <> [] \/ exists e, cleanup_error d = Some e)))
    | inl e =>
        d = [] /\ fs w' = fs w /\
        respond (fst (parse_document E file w))
          = Response 500 [("detail", VStr ("Error processing file: " +:+ str E e))]
    end.
Proof.
  intros Hk w'. subst w'.
  destruct (NamedTemporaryFile E (extension file) w) as [e|name] eqn:Ht.
  - rewrite parse_document_surfaced, (parse_document_try_no_file E file w e Hk Ht).
    cbn [fst snd]. exists []. now rewrite app_nil_r.
  - destruct (staged_request_runs E file w name Hk Ht)
      as (o1 & files1 & d1 & o2 & files2 & d2 & _ & Hq & _ & _ & Hdig & Hne & ->).
    pose proof Hdig as (_ & _ & _ & Hgone & _ & _ & _ & _ & Hev).
    destruct (request_events name d1 d2 Hq Hev Hne)
      as (Hc & Hu & Hw & _ & _ & _ & Hce & _ & _).
    exists (EvCreate name :: d1 ++ d2). cbn [snd trace fs].
    split; [reflexivity|]. split; [exact Hc|].
    unfold deletion_exhausted in *. now rewrite Hu, Hw, Hce.
Qed.

Lemma scratch_file_lifecycle_witness :
  PyDict.contains (extension (upload "a.docx" "PK"))
    (registry (initial_world ∅)) = true /\
  exists d,
    trace (snd (parse_document corrupt_env (upload "a.docx" "PK") (initial_world ∅)))
      = trace (initial_world ∅) ++ d /\
    created d = ["/tmp/tmpk3x9.docx"] /\
    (("/tmp/tmpk3x9.docx"
        ∉ fs (snd (parse_document corrupt_env (upload "a.docx" "PK") (initial_world ∅))))
     \/ (deletion_exhausted d /\
         (warnings d <> [] \/ exists e, cleanup_error d = Some e))).
Proof.
  split; [reflexivity|].
  exact (scratch_file_lifecycle corrupt_env (upload "a.docx" "PK")
           (initial_world ∅) eq_refl).
Defined.

(** ** Parser failures *)




(** With the lock gone at the third attempt, the file of the rejected
    upload is deleted. *)
Example rejected_upload_deleted :
  fs (snd (parse_document (with_unlink locked_twice corrupt_env)
             (upload "a.docx" "PK") (initial_world ∅)))
    = (∅ ∪ {["/tmp/tmpk3x9.docx"]}) ∖ {["/tmp/tmpk3x9.docx"]}.
Proof. reflexivity. Qed.

(** ** The listing of the formats *)

(** C9. After any requests, [GET /supported-formats] returns the keys of
    the registry of lines 31-42 in their order, and changes nothing: the
    registry is still [PARSER_MAP], and any number of calls in a row get
    the same list. *)
Theorem supported_formats_stable {content} (E : Env content)
    (rs : list request) (files : gset string) (n : nat) :
  let w := snd (serve E rs (initial_world files)) in
  let listing : response content :=
    Response 200
      [("supported_formats",
        VList [".pdf"; ".docx"; ".xlsx"; ".xls"; ".pptx"; ".ppt";
               ".html"; ".json"; ".md"; ".txt"])] in
  registry w = PARSER_MAP /\
  handle E GetSupportedFormats w = (listing, w) /\
  serve E (repeat GetSupportedFormats n) w = (repeat listing n, w).
Proof.
  intros w listing.
  assert (registry w = PARSER_MAP) as Hreg by (subst w; now rewrite serve_registry).
  assert (handle E GetSupportedFormats w = (listing, w)) as Hh.
  { cbn. unfold registry_keys, bind, ret. now rewrite Hreg. }
  split; [exact Hreg|]. split; [exact Hh|].
  induction n as [|n IH]; [reflexivity|].
  cbn [repeat serve]. now rewrite Hh, IH.
Qed.


(** * Further properties *)

(** ** Suffixes *)

Lemma split_no_sep (sep : ascii) (s : string) :
  PyStr.contains_char sep s = false -> PyStr.split sep s = [s].
Proof.
  induction s as [|a s IH]; simpl; [reflexivity|].
  intros H. apply orb_false_iff in H as [Ha Hs].
  now rewrite Ha, (IH Hs).
Qed.

Lemma contains_char_app (c : ascii) (s1 s2 : string) :
  PyStr.contains_char c (s1 +:+ s2)
    = PyStr.contains_char c s1 || PyStr.contains_char c s2.
Proof.
  induction s1 as [|a s1 IH]; simpl; [reflexivity|].
  now rewrite IH, orb_assoc.
Qed.

(** The last occurrence is where the character is followed by none. *)
Lemma rfind_app (c : ascii) (s1 s2 : string) :
  PyStr.contains_char c s2 = false ->
  PyStr.rfind c (s1 +:+ String c s2) = PyStr.len s1.
Proof.
  intros H2. unfold PyStr.len. induction s1 as [|a s1 IH]; simpl.
  - now rewrite (rfind_absent c s2 H2), Ascii.eqb_refl.
  - rewrite IH. destruct (0 <=? Z.of_nat (String.length s1)) eqn:Hle; [lia|].
    apply Z.leb_gt in Hle. lia.
Qed.

Lemma rfind_found (c : ascii) (s : string) :
  0 <= PyStr.rfind c s ->
  exists s1 s2,
    s = s1 +:+ String c s2 /\ PyStr.len s1 = PyStr.rfind c s /\
    PyStr.contains_char c s2 = false.
Proof.
  induction s as [|a s IH]; simpl; [lia|].
  destruct (0 <=? PyStr.rfind c s) eqn:Hle.
  - intros _. apply Z.leb_le in Hle. destruct (IH Hle) as (s1 & s2 & -> & Hl & H2).
    exists (String a s1), s2. split; [reflexivity|]. split; [|exact H2].
    unfold PyStr.len in *. simpl. lia.
  - destruct (Ascii.eqb_spec a c) as [->|Hne]; [|lia]. intros _.
    exists "", s. split; [reflexivity|]. split; [reflexivity|].
    apply Z.leb_gt in Hle. clear IH.
    induction s as [|b s IH]; simpl in *; [reflexivity|].
    destruct (0 <=? PyStr.rfind c s) eqn:Hs.
    + apply Z.leb_le in Hs. lia.
    + destruct (Ascii.eqb b c); [lia|]. simpl. apply IH. apply Z.leb_gt in Hs. lia.
Qed.

Lemma substring_all (s : string) : substring 0 (String.length s) s = s.
Proof. induction s as [|a s IH]; simpl; [reflexivity | now rewrite IH]. Qed.

Lemma length_app (s1 s2 : string) :
  String.length (s1 +:+ s2) = (String.length s1 + String.length s2)%nat.
Proof. induction s1 as [|a s1 IH]; simpl; [reflexivity | now rewrite IH]. Qed.

Lemma slice_from_app (s1 s2 : string) :
  PyStr.slice_from (PyStr.len s1) (s1 +:+ s2) = s2.
Proof.
  unfold PyStr.slice_from, PyStr.len. rewrite Nat2Z.id, length_app.
  replace (String.length s1 + String.length s2 - String.length s1)%nat
    with (String.length s2) by lia.
  induction s1 as [|a s1 IH]; simpl; [apply substring_all | exact IH].
Qed.

Lemma split_pieces_no_sep (sep : ascii) (s : string) :
  Forall (fun x => PyStr.contains_char sep x = false) (PyStr.split sep s).
Proof.
  induction s as [|a s IH]; simpl.
  - repeat constructor.
  - destruct (Ascii.eqb a sep) eqn:Ha.
    + constructor; [reflexivity | exact IH].
    + destruct (PyStr.split sep s) as [|x xs].
      * repeat constructor. simpl. now rewrite Ha.
      * inversion IH; subst. constructor; [|assumption].
        simpl. now rewrite Ha.
Qed.

(** The name of a path holds no separator. *)
Lemma name_no_sep (path : string) :
  PyStr.contains_char PyPath.sep (PyPath.name path) = false.
Proof.
  unfold PyPath.name, PyPath.parts.
  apply last_Forall; [reflexivity|].
  apply List.Forall_forall. intros x Hx.
  apply List.filter_In in Hx as [Hx _].
  pose proof (split_pieces_no_sep PyPath.sep path) as HF.
  rewrite List.Forall_forall in HF. now apply HF.
Qed.

(** A path without separator that is neither empty nor ["."] is its own name. *)
Lemma name_plain (s : string) :
  PyStr.contains_char PyPath.sep s = false ->
  s <> "" -> s <> "." ->
  PyPath.name s = s.
Proof.
  intros Hs He Hd. unfold PyPath.name, PyPath.parts.
  rewrite (split_no_sep _ _ Hs). cbn [List.filter].
  apply String.eqb_neq in He, Hd. now rewrite He, Hd.
Qed.


Lemma suffix_of_bare_ext (e : string) :
  PyStr.contains_char PyPath.dot e = false ->
  PyStr.contains_char PyPath.sep e = false ->
  PyPath.suffix (String PyPath.dot e) = "".
Proof.
  intros Hdot Hsep. unfold PyPath.suffix.
  destruct e as [|a e].
  - reflexivity.
  - rewrite name_plain.
    + change (String PyPath.dot (String a e)) with ("" +:+ String PyPath.dot (String a e)).
      now rewrite (rfind_app _ _ _ Hdot).
    + cbn [PyStr.contains_char] in *. now rewrite Hsep.
    + discriminate.
    + discriminate.
Qed.

(** The suffix of any path: empty, or a dot and then at least one character,
    none of them a dot or a separator. *)
Lemma suffix_shape (path : string) :
  PyPath.suffix path = "" \/
  exists e,
    PyPath.suffix path = String PyPath.dot e /\ e <> "" /\
    PyStr.contains_char PyPath.dot e = false /\
    PyStr.contains_char PyPath.sep e = false.
Proof.
  unfold PyPath.suffix. pose proof (name_no_sep path) as Hsep.
  destruct ((0 <? PyStr.rfind PyPath.dot (PyPath.name path))
            && (PyStr.rfind PyPath.dot (PyPath.name path)
                <? PyStr.len (PyPath.name path) - 1)) eqn:Hc; [|now left].
  right. apply andb_true_iff in Hc as [H0 H1].
  apply Z.ltb_lt in H0, H1.
  destruct (rfind_found PyPath.dot (PyPath.name path) ltac:(lia))
    as (s1 & s2 & Hn & Hl & Hd).
  rewrite Hn in *. rewrite <- Hl, slice_from_app.
  exists s2. split; [reflexivity|].
  rewrite contains_char_app in Hsep. apply orb_false_iff in Hsep as [_ Hsep].
  cbn [PyStr.contains_char] in Hsep. apply orb_false_iff in Hsep as [_ Hsep].
  split; [|auto].
  intros ->. unfold PyStr.len in *. rewrite length_app in H1. simpl in H1. lia.
Qed.

Lemma ascii_lower_is_dot (a : ascii) :
  Ascii.eqb (PyStr.ascii_lower a) PyPath.dot = Ascii.eqb a PyPath.dot.
Proof. destruct a as [[] [] [] [] [] [] [] []]; reflexivity. Qed.

Lemma ascii_lower_is_sep (a : ascii) :
  Ascii.eqb (PyStr.ascii_lower a) PyPath.sep = Ascii.eqb a PyPath.sep.
Proof. destruct a as [[] [] [] [] [] [] [] []]; reflexivity. Qed.

Lemma lower_contains_dot (s : string) :
  PyStr.contains_char PyPath.dot (PyStr.lower s) = PyStr.contains_char PyPath.dot s.
Proof.
  induction s as [|a s IH]; simpl; [reflexivity|].
  now rewrite ascii_lower_is_dot, IH.
Qed.

Lemma lower_contains_sep (s : string) :
  PyStr.contains_char PyPath.sep (PyStr.lower s) = PyStr.contains_char PyPath.sep s.
Proof.
  induction s as [|a s IH]; simpl; [reflexivity|].
  now rewrite ascii_lower_is_sep, IH.
Qed.


(** ** What the handler answers *)

Lemma parse_document_cases {content} (E : Env content)
    (file : UploadFile) (w : world) :
  (exists result,
     fst (parse_document E file w)
       = Return [("status", VStr "success"); ("content", VContent result)])
  \/ (exists e,
        fst (parse_document E file w)
          = Raise (HTTPException 500 ("Error processing file: " +:+ str E e))).
Proof.
  destruct (PyDict.contains (extension file) (registry w)) eqn:Hk.
  - destruct (NamedTemporaryFile E (extension file) w) as [e|name] eqn:Ht.
    + right. exists e.
      now rewrite parse_document_surfaced, (parse_document_try_no_file E file w e Hk Ht).
    + destruct (staged_request_runs E file w name Hk Ht)
        as (o1 & files1 & d1 & o2 & files2 & d2 & _ & _ & Hv & _ & _ & _ & ->).
      cbn [fst]. destruct (cleanup_error (EvCreate name :: d1 ++ d2)) as [e|].
      * right. now exists e.
      * destruct o1 as [v|e].
        -- left. destruct (Hv v eq_refl) as [result ->]. now exists result.
        -- right. now exists e.
  - right.
    exists (HTTPException 400
              (unsupported_detail (extension file) (PyDict.keys (registry w)))).
    now rewrite parse_document_surfaced, (parse_document_try_unsupported E file w Hk).
Qed.

(** X1. Every exception that is an instance of [Exception], the only ones
    the embedding has, whichever collaborator raises it, [print] included,
    is caught: [parse_document] either returns the success body or raises
    an [HTTPException] of status 500 whose detail starts with
    ["Error processing file: "], so that the response has status 200 or 500. *)
Theorem parse_document_outcome {content} (E : Env content)
    (file : UploadFile) (w : world) :
  ((exists result,
      fst (parse_document E file w)
        = Return [("status", VStr "success"); ("content", VContent result)])
   \/ (exists e,
         fst (parse_document E file w)
           = Raise (HTTPException 500 ("Error processing file: " +:+ str E e))))
  /\ answered (respond (fst (parse_document E file w))).
Proof.
  split; [apply parse_document_cases|].
  destruct (parse_document_cases E file w) as [[result ->]|[e ->]];
    cbn [respond]; eexists; eauto.
Qed.

(** ** Failures before the parser *)

(** X3. When the scratch file cannot be made, the handler answers 500 with
    the message of the failure and stops there: no cleanup is attempted, no
    warning printed, the world is as before the request. *)
Theorem creation_failure_surfaced {content} (E : Env content)
    (file : UploadFile) (w : world) (e : exn) :
  PyDict.contains (extension file) (registry w) = true ->
  NamedTemporaryFile E (extension file) w = inl e ->
  parse_document E file w
    = (Raise (HTTPException 500 ("Error processing file: " +:+ str E e)), w) /\
  respond (fst (parse_document E file w))
    = Response 500 [("detail", VStr ("Error processing file: " +:+ str E e))].
Proof.
  intros Hk Ht.
  rewrite parse_document_surfaced, (parse_document_try_no_file E file w e Hk Ht).
  split; reflexivity.
Qed.

Lemma creation_failure_surfaced_witness :
  PyDict.contains (extension (upload "report.pdf" "%PDF-1.7"))
    (registry (initial_world ∅)) = true /\
  respond (fst (parse_document full_disk_env (upload "report.pdf" "%PDF-1.7")
                  (initial_world ∅)))
    = Response 500
        [("detail",
          VStr "Error processing file: [Errno 28] No space left on device")].
Proof.
  split; [reflexivity|].
  apply (creation_failure_surfaced full_disk_env (upload "report.pdf" "%PDF-1.7")
           (initial_world ∅)
           (Error "OSError" "[Errno 28] No space left on device"));
    reflexivity.
Defined.

Lemma stage_and_parse_fails {content} (E : Env content)
    (file : UploadFile) (w : world) (name : string) (e : exn) :
  staging_fails E file w name e ->
  exists d1,
    stage_and_parse E file (extension file) name (world_created name w)
      = (Raise e, World (registry w) (fs w ∪ {[name]})
                    (trace w ++ EvCreate name :: d1)) /\
    existsb parser_event d1 = false /\ created d1 = [].
Proof.
  intros [Ht Hf]. unfold stage_and_parse.
  unfold bind at 1, file_read.
  destruct Hf as [Hr|(data & Hr & Hf)]; rewrite Hr.
  - exists [EvRead]. unfold world_created, log_event, with_fs; cbn.
    now rewrite <- app_assoc.
  - cbv zeta in Hf. unfold bind at 1, write, call.
    destruct Hf as [Hw|(Hw & Hf)]; rewrite Hw.
    + exists [EvRead; EvWrite name data]. unfold world_created, log_event, with_fs; cbn.
      now rewrite <- !app_assoc.
    + unfold bind at 1, flush, call.
      destruct Hf as [Hfl|(Hfl & Hc)]; rewrite Hfl.
      * exists [EvRead; EvWrite name data; EvFlush name].
        unfold world_created, log_event, with_fs; cbn. now rewrite <- !app_assoc.
      * unfold bind at 1, close, call. rewrite Hc.
        exists [EvRead; EvWrite name data; EvFlush name; EvClose name].
        unfold world_created, log_event, with_fs; cbn. now rewrite <- !app_assoc.
Qed.

(** X4. When reading the upload, or writing, flushing or closing the
    scratch file raises [e], no parser is instantiated or called; the
    handler answers 500, with the message of [e] unless the cleanup block
    raises, which it does only when [os.unlink] has failed and a [print] of
    the warning raises, the 500 then carrying the message of that [print];
    and the scratch file, the only one made, goes through the cleanup
    block: the request completes with the file gone, or with the deletion
    attempted to exhaustion and a warning logged, unless the [print] of the
    warning raises. *)
Theorem staging_failure_surfaced {content} (E : Env content)
    (file : UploadFile) (w : world) (name : string) (e : exn) :
  PyDict.contains (extension file) (registry w) = true ->
  staging_fails E file w name e ->
  let w' := snd (parse_document E file w) in
  exists d,
    trace w' = trace w ++ d /\
    created d = [name] /\
    existsb parser_event d = false /\
    respond (fst (parse_document E file w))
      = Response 500
          [("detail",
            VStr ("Error processing file: " +:+
                  str E match cleanup_error d with None => e | Some e' => e' end))] /\
    (forall e',
       cleanup_error d = Some e' ->
       (exists line w0, stdout_print E line w0 = Some e') /\
       exists e0, In (Some e0) (unlinks d)) /\
    ((name ∉ fs w')
     \/ (deletion_exhausted d /\
         (warnings d <> [] \/ exists e', cleanup_error d = Some e'))).
Proof.
  intros Hk Hf w'. subst w'. pose proof Hf as [Ht _].
  destruct (stage_and_parse_fails E file w name e Hf) as (d0 & Heq & Hp0 & _).
  destruct (staged_request_runs E file w name Hk Ht)
    as (o1 & files1 & d1 & o2 & files2 & d2 & Hst & Hq & _ & _ & Hdig & Hne & ->).
  rewrite Heq in Hst. injection Hst as Ho _ Htr.
  apply app_inv_head in Htr. injection Htr as Hd. subst o1 d0.
  pose proof Hdig as (_ & _ & _ & Hgone & _ & _ & _ & _ & Hev).
  destruct (request_events name d1 d2 Hq Hev Hne)
    as (Hc & Hu & Hw & _ & _ & _ & Hce & _ & Hpe).
  exists (EvCreate name :: d1 ++ d2). cbn [fst snd trace fs].
  split; [reflexivity|]. split; [exact Hc|]. split; [now rewrite Hpe|].
  split; [now destruct (cleanup_error (EvCreate name :: d1 ++ d2))|].
  split.
  - intros e' He. rewrite Hce in He. rewrite Hu.
    exact (cleanup_error_cause E name _ _ _ _ e' Hdig He).
  - unfold deletion_exhausted in *. now rewrite Hu, Hw, Hce.
Qed.

Lemma staging_failure_surfaced_witness :
  PyDict.contains (extension (upload "big.txt" "hello"))
    (registry (initial_world ∅)) = true /\
  staging_fails write_fails_env (upload "big.txt" "hello") (initial_world ∅)
    "/tmp/tmpk3x9.txt" (Error "OSError" "[Errno 28] No space left on device") /\
  exists d,
    trace (snd (parse_document write_fails_env (upload "big.txt" "hello")
                  (initial_world ∅)))
      = trace (initial_world ∅) ++ d /\
    created d = ["/tmp/tmpk3x9.txt"] /\
    existsb parser_event d = false.
Proof.
  assert (staging_fails write_fails_env (upload "big.txt" "hello") (initial_world ∅)
            "/tmp/tmpk3x9.txt"
            (Error "OSError" "[Errno 28] No space left on device")) as Hf.
  { split; [reflexivity|]. right. exists "hello". split; [reflexivity|].
    left. reflexivity. }
  split; [reflexivity|]. split; [exact Hf|].
  destruct (staging_failure_surfaced write_fails_env (upload "big.txt" "hello")
              (initial_world ∅) "/tmp/tmpk3x9.txt"
              (Error "OSError" "[Errno 28] No space left on device") eq_refl Hf)
    as (d & Htr & Hc & Hp & _).
  exists d. auto.
Defined.

(** ** The parser and the scratch file *)

(** X5. A request touches a parser only after it has made the scratch
    file, read the upload, written exactly the bytes read to the file,
    flushed it and closed it; the class instantiated is the one the registry
    binds to the extension; and it is called at most once, on the path of
    the scratch file. *)
Theorem parser_sees_closed_file {content} (E : Env content)
    (file : UploadFile) (w : world) (d : list event) :
  trace (snd (parse_document E file w)) = trace w ++ d ->
  existsb parser_event d = true ->
  exists name data cls rest,
    NamedTemporaryFile E (extension file) w = inr name /\
    read file = inr data /\
    PyDict.get (extension file) (registry w) = Some cls /\
    d = [EvCreate name; EvRead; EvWrite name data; EvFlush name; EvClose name;
         EvConstruct cls] ++ rest /\
    (parsed d = [] \/ parsed d = [(cls, name)]).
Proof.
  intros Hd Hp.
  destruct (PyDict.contains (extension file) (registry w)) eqn:Hk.
  - destruct (NamedTemporaryFile E (extension file) w) as [e|name] eqn:Ht.
    + rewrite parse_document_surfaced,
        (parse_document_try_no_file E file w e Hk Ht) in Hd. cbn [snd] in Hd.
      rewrite <- (app_nil_r (trace w)) in Hd at 1.
      apply app_inv_head in Hd. subst d. discriminate Hp.
    + destruct (staged_request_runs E file w name Hk Ht)
        as (o1 & files1 & d1 & o2 & files2 & d2 & _ & Hq & _ & Hp1 & Hdig & Hne & Heq).
      rewrite Heq in Hd. cbn [snd trace] in Hd.
      apply app_inv_head in Hd. subst d.
      pose proof Hdig as (_ & _ & _ & _ & _ & _ & _ & _ & Hev).
      destruct (request_events name d1 d2 Hq Hev Hne)
        as (_ & _ & _ & _ & _ & _ & _ & Hpa & Hpe).
      rewrite Hpe in Hp. rewrite Hpa.
      destruct (Hp1 Hp) as (data & cls & Hr & Hg & [->| ->]);
        exists name, data, cls; eexists; (split; [reflexivity|]);
        (split; [exact Hr|]); (split; [exact Hg|]);
        (split; [cbn [app]; reflexivity|]); cbn [parsed]; auto.
  - rewrite (unsupported_is_surfaced_as_500 E file w Hk) in Hd. cbn [snd] in Hd.
    rewrite <- (app_nil_r (trace w)) in Hd at 1.
    apply app_inv_head in Hd. subst d. discriminate Hp.
Qed.

Lemma parser_sees_closed_file_witness :
  exists rest,
    trace (snd (parse_document healthy_env (upload "report.PDF" "%PDF-1.7")
                  (initial_world ∅)))
      = [EvCreate "/tmp/tmpk3x9.pdf"; EvRead;
         EvWrite "/tmp/tmpk3x9.pdf" "%PDF-1.7"; EvFlush "/tmp/tmpk3x9.pdf";
         EvClose "/tmp/tmpk3x9.pdf"; EvConstruct PdfParser] ++ rest.
Proof.
  assert (existsb parser_event
            (trace (snd (parse_document healthy_env (upload "report.PDF" "%PDF-1.7")
                           (initial_world ∅)))) = true) as Hp by reflexivity.
  destruct (parser_sees_closed_file healthy_env (upload "report.PDF" "%PDF-1.7")
              (initial_world ∅) _ eq_refl Hp)
    as (name & data & cls & rest & Ht & Hr & Hg & Hd & _).
  inversion Ht; subst name. inversion Hr; subst data. inversion Hg; subst cls.
  exists rest. exact Hd.
Defined.

(** ** More on the cleanup block *)

(** X6. The cleanup block removes no file but the scratch file, and makes
    none: the files afterwards are those before, less at most the scratch
    file; the registry is as before. *)
Theorem release_removes_only_scratch_file {content} (E : Env content)
    (name : string) (w : world) :
  (fs (snd (release E name w)) = fs w
   \/ fs (snd (release E name w)) = fs w ∖ {[name]}) /\
  registry (snd (release E name w)) = registry w.
Proof.
  destruct (release_digest E name w) as (o & files & d & -> & _ & _ & Hf & _).
  cbn [snd fs registry]. split; [exact Hf | reflexivity].
Qed.

(** X7. When the scratch file is already gone, the cleanup block checks once
    that it is, and does nothing else: no [os.unlink], no wait, no warning. *)
Theorem release_of_absent_file {content} (E : Env content)
    (name : string) (w : world) :
  name ∉ fs w ->
  release E name w = (Return tt, log_event (EvExists name false) w).
Proof. apply release_absent. Qed.

Lemma release_of_absent_file_witness :
  ("/tmp/tmpk3x9.pdf" ∉ fs (initial_world ∅)) /\
  release healthy_env "/tmp/tmpk3x9.pdf" (initial_world ∅)
    = (Return tt, log_event (EvExists "/tmp/tmpk3x9.pdf" false) (initial_world ∅)).
Proof.
  assert ("/tmp/tmpk3x9.pdf" ∉ fs (initial_world ∅)) as H
    by (cbn; apply not_elem_of_empty).
  split; [exact H|].
  exact (release_of_absent_file healthy_env "/tmp/tmpk3x9.pdf" (initial_world ∅) H).
Defined.

Lemma warnings_prints (d : list event) : warnings d <> [] -> prints d <> [].
Proof.
  intros Hw Hp. destruct (no_prints d Hp) as (Hnil & _). contradiction.
Qed.

(** X8. The cleanup block logs at most one line, and only after an
    [os.unlink] has failed: the warning of line 95, or the warning of line
    97 with the message of a failure. Where it leaves the scratch file
    behind, it has logged one, unless the [print] of the warning raised,
    which the cleanup block then raises. *)
Theorem release_warns_when_file_remains {content} (E : Env content)
    (name : string) (w : world) :
  exists d,
    trace (snd (release E name w)) = trace w ++ d /\
    (warnings d = []
     \/ warnings d = ["Warning: Could not delete temporary file: " +:+ name]
     \/ exists e,
          warnings d = ["Warning: Error while deleting temporary file: " +:+ str E e]) /\
    (warnings d <> [] -> exists e, In (Some e) (unlinks d)) /\
    (name ∈ fs (snd (release E name w)) ->
     warnings d <> []
     \/ exists e, cleanup_error d = Some e /\ fst (release E name w) = Raise e).
Proof.
  destruct (release_digest E name w)
    as (o & files & d & -> & _ & Ho & _ & Hgone & Hforms & Hpr & _).
  exists d. cbn [fst snd trace fs]. split; [reflexivity|]. split; [exact Hforms|].
  split; [intros Hw; exact (Hpr (warnings_prints d Hw))|].
  intros Hin. destruct Hgone as [Hout|[_ [Hw|[e He]]]]; [contradiction | now left |].
  right. exists e. rewrite Ho, He. auto.
Qed.

(** X9. On a host where [os.unlink] does not fail, every request that got
    its scratch file completes with the file deleted, after one attempt,
    with no wait and no warning, whatever the staging and the parser did. *)
Theorem scratch_file_deleted_when_unlink_works {content} (E : Env content)
    (file : UploadFile) (w : world) (name : string) :
  (forall path w0, os_unlink E path w0 = None) ->
  PyDict.contains (extension file) (registry w) = true ->
  NamedTemporaryFile E (extension file) w = inr name ->
  let w' := snd (parse_document E file w) in
  (name ∉ fs w') /\
  exists d,
    trace w' = trace w ++ d /\
    attempts d = 1%nat /\ sleeps d = [] /\ warnings d = [].
Proof.
  intros Hok Hk Ht w'. subst w'.
  destruct (stage_and_parse_events E file (extension file) name (world_created name w))
    as (o1 & files1 & d1 & Heq & Hq & _).
  apply staging_events_quiet in Hq as (Hw1 & Hs1 & _ & _ & Ha1 & _).
  rewrite parse_document_surfaced, (parse_document_try_staging E file w name Hk Ht).
  cbv zeta. rewrite Heq. cbn [fst snd].
  rewrite (release_unlocked E name _ (Hok name)). cbn [snd fs trace registry].
  case_bool_decide as Hin;
    unfold world_created, log_event, with_fs; cbn [fs trace registry].
  - split; [apply not_elem_of_removed|].
    rewrite <- !app_assoc. cbn [app]. eexists. split; [reflexivity|].
    cbn [attempts sleeps warnings].
    now rewrite attempts_app, sleeps_app, warnings_app, Ha1, Hs1, Hw1.
  - split; [exact Hin|].
    rewrite <- !app_assoc. cbn [app]. eexists. split; [reflexivity|].
    cbn [attempts sleeps warnings].
    now rewrite attempts_app, sleeps_app, warnings_app, Ha1, Hs1, Hw1.
Qed.

Lemma scratch_file_deleted_when_unlink_works_witness :
  PyDict.contains (extension (upload "big.txt" "hello"))
    (registry (initial_world ∅)) = true /\
  "/tmp/tmpk3x9.txt"
    ∉ fs (snd (parse_document write_fails_env (upload "big.txt" "hello")
                 (initial_world ∅))).
Proof.
  split; [reflexivity|].
  apply (scratch_file_deleted_when_unlink_works write_fails_env
           (upload "big.txt" "hello") (initial_world ∅) "/tmp/tmpk3x9.txt");
    reflexivity.
Defined.

(** ** Names and extensions *)

Lemma all_chars_app (P : ascii -> bool) (s1 s2 : string) :
  all_chars P (s1 +:+ s2) = all_chars P s1 && all_chars P s2.
Proof.
  induction s1 as [|a s1 IH]; simpl; [reflexivity|].
  now rewrite IH, andb_assoc.
Qed.

Lemma split_all_chars (P : ascii -> bool) (sep : ascii) (s : string) :
  all_chars P s = true ->
  Forall (fun x => all_chars P x = true) (PyStr.split sep s).
Proof.
  induction s as [|a s IH]; simpl; intros H.
  - repeat constructor.
  - apply andb_true_iff in H as [Ha Hs]. specialize (IH Hs).
    destruct (Ascii.eqb a sep).
    + constructor; [reflexivity | exact IH].
    + destruct (PyStr.split sep s) as [|x xs].
      * repeat constructor. simpl. now rewrite Ha.
      * inversion IH; subst. constructor; [|assumption].
        simpl. now rewrite Ha.
Qed.

Lemma suffix_all_chars (P : ascii -> bool) (path : string) :
  all_chars P path = true -> all_chars P (PyPath.suffix path) = true.
Proof.
  intros H.
  assert (all_chars P (PyPath.name path) = true) as Hn.
  { unfold PyPath.name, PyPath.parts. apply last_Forall; [reflexivity|].
    apply List.Forall_forall. intros x Hx.
    apply List.filter_In in Hx as [Hx _].
    pose proof (split_all_chars P PyPath.sep path H) as HF.
    rewrite List.Forall_forall in HF. now apply HF. }
  unfold PyPath.suffix.
  destruct ((0 <? PyStr.rfind PyPath.dot (PyPath.name path))
            && (PyStr.rfind PyPath.dot (PyPath.name path)
                <? PyStr.len (PyPath.name path) - 1)) eqn:Hc; [|reflexivity].
  apply andb_true_iff in Hc as [H0 _]. apply Z.ltb_lt in H0.
  destruct (rfind_found PyPath.dot (PyPath.name path) ltac:(lia))
    as (s1 & s2 & Heq & Hl & _).
  rewrite Heq in *. rewrite <- Hl, slice_from_app.
  rewrite all_chars_app in Hn. now apply andb_true_iff in Hn as [_ Hn].
Qed.

Lemma ascii_lower_ascii (c : ascii) :
  (nat_of_ascii c <? 128)%nat = true ->
  (nat_of_ascii (PyStr.ascii_lower c) <? 128)%nat = true.
Proof. destruct c as [[] [] [] [] [] [] [] []]; intros H; try discriminate H; reflexivity. Qed.

Lemma ascii_lower_not_upper (c : ascii) :
  negb ((65 <=? nat_of_ascii (PyStr.ascii_lower c))%nat
        && (nat_of_ascii (PyStr.ascii_lower c) <=? 90)%nat) = true.
Proof. destruct c as [[] [] [] [] [] [] [] []]; reflexivity. Qed.

Lemma lower_ascii_only (s : string) :
  ascii_only s = true -> ascii_only (PyStr.lower s) = true.
Proof.
  unfold ascii_only. induction s as [|c s IH]; cbn [all_chars PyStr.lower];
    [reflexivity|].
  intros [Hc Hs]%andb_true_iff. now rewrite (ascii_lower_ascii c Hc), (IH Hs).
Qed.

Lemma lower_no_upper (s : string) : no_upper (PyStr.lower s) = true.
Proof.
  unfold no_upper. induction s as [|c s IH]; cbn [all_chars PyStr.lower];
    [reflexivity|].
  now rewrite ascii_lower_not_upper, IH.
Qed.

(** X10. For a file name of ASCII characters, on which the embedding's
    [lower] is [str.lower], the extension computed at line 58 is made of
    ASCII characters, none of them an upper-case letter, and is either
    empty or a dot followed by at least one character, none of them a dot
    or a path separator: the suffix handed to [NamedTemporaryFile] cannot
    name a directory. *)
Theorem extension_shape (file : UploadFile) :
  ascii_only (filename file) = true ->
  ascii_only (extension file) = true /\
  no_upper (extension file) = true /\
  (extension file = "" \/
   exists e,
     extension file = String PyPath.dot e /\ e <> "" /\
     PyStr.contains_char PyPath.dot e = false /\
     PyStr.contains_char PyPath.sep e = false).
Proof.
  intros Ha. unfold extension.
  split; [apply lower_ascii_only; unfold ascii_only; now apply suffix_all_chars|].
  split; [apply lower_no_upper|].
  destruct (suffix_shape (filename file)) as [->|(e & -> & He & Hd & Hs)];
    [now left | right].
  exists (PyStr.lower e). split; [reflexivity|].
  rewrite lower_contains_dot, lower_contains_sep.
  split; [|auto]. destruct e; simpl; [exact He | discriminate].
Qed.

Lemma extension_shape_witness :
  ascii_only (filename (upload "Annual Report.Final.PDF" "%PDF-1.7")) = true /\
  extension (upload "Annual Report.Final.PDF" "%PDF-1.7") = ".pdf" /\
  no_upper (extension (upload "Annual Report.Final.PDF" "%PDF-1.7")) = true.
Proof.
  split; [reflexivity|]. split; [reflexivity|].
  apply (extension_shape (upload "Annual Report.Final.PDF" "%PDF-1.7")).
  reflexivity.
Defined.



(** X12. An upload whose name is a bare extension, a dot followed by
    characters that are neither dots nor separators (as [.pdf] is), has the
    empty extension: it is rejected at line 61 like a name without a dot,
    and nothing is staged. *)
Theorem bare_extension_rejected {content} (E : Env content)
    (e : string) (r : exn + string) (w : world) :
  PyStr.contains_char PyPath.dot e = false ->
  PyStr.contains_char PyPath.sep e = false ->
  registry w = PARSER_MAP ->
  let file := {| filename := String PyPath.dot e; read := r |} in
  extension file = "" /\
  parse_document_try E file w
    = (Raise (HTTPException 400
                (unsupported_detail "" (PyDict.keys PARSER_MAP))), w) /\
  snd (parse_document E file w) = w.
Proof.
  intros Hd Hs Hreg file.
  assert (extension file = "") as Hext
    by (subst file; unfold extension; cbn [filename];
        now rewrite (suffix_of_bare_ext e Hd Hs)).
  assert (PyDict.contains (extension file) (registry w) = false) as Hk
    by (now rewrite Hext, Hreg).
  split; [exact Hext|]. split.
  - now rewrite (parse_document_try_unsupported E file w Hk), Hext, Hreg.
  - now rewrite (unsupported_is_surfaced_as_500 E file w Hk).
Qed.

Lemma bare_extension_rejected_witness :
  PyStr.contains_char PyPath.dot "pdf" = false /\
  extension (upload ".pdf" "%PDF-1.7") = "" /\
  snd (parse_document healthy_env (upload ".pdf" "%PDF-1.7") (initial_world ∅))
    = initial_world ∅.
Proof.
  split; [reflexivity|].
  pose proof (bare_extension_rejected healthy_env "pdf" (inr "%PDF-1.7")
                (initial_world ∅) eq_refl eq_refl eq_refl) as H.
  cbv zeta in H. destruct H as (He & _ & Hw).
  split; [exact He | exact Hw].
Defined.

(** ** Requests in a row *)

Lemma serve_app {content} (E : Env content) (rs1 rs2 : list request) (w : world) :
  serve E (rs1 ++ rs2) w
    = (fst (serve E rs1 w) ++ fst (serve E rs2 (snd (serve E rs1 w))),
       snd (serve E rs2 (snd (serve E rs1 w)))).
Proof.
  revert w. induction rs1 as [|r rs1 IH]; intros w; cbn [app serve fst snd].
  - now destruct (serve E rs2 w).
  - destruct (handle E r w) as [x w1]. rewrite IH.
    destruct (serve E rs1 w1) as [xs w2]. reflexivity.
Qed.

Lemma effectless_handle {content} (E : Env content) (r : request) (w : world) :
  effectless (registry w) r -> snd (handle E r w) = w.
Proof.
  destruct r as [file|]; cbn [effectless handle]; [|reflexivity].
  intros Hk. now rewrite (unsupported_is_surfaced_as_500 E file w Hk).
Qed.

(** X13. A rejected upload and a listing of the formats are invisible to
    the requests around them: wherever one stands in a sequence of
    requests, the others get the responses, and the service ends in the
    state, that they would without it. *)
Theorem effectless_request_invisible {content} (E : Env content)
    (rs1 rs2 : list request) (r : request) (w : world) :
  effectless (registry w) r ->
  let w1 := snd (serve E rs1 w) in
  serve E (rs1 ++ r :: rs2) w
    = (fst (serve E rs1 w) ++ fst (handle E r w1) :: fst (serve E rs2 w1),
       snd (serve E (rs1 ++ rs2) w)) /\
  fst (serve E (rs1 ++ rs2) w) = fst (serve E rs1 w) ++ fst (serve E rs2 w1).
Proof.
  intros Hr w1. subst w1. rewrite !serve_app. cbn [fst snd serve].
  assert (effectless (registry (snd (serve E rs1 w))) r) as Hr'
    by (now rewrite serve_registry).
  pose proof (effectless_handle E r _ Hr') as Hw.
  destruct (handle E r (snd (serve E rs1 w))) as [x w2]. cbn [fst snd] in *. subst w2.
  destruct (serve E rs2 (snd (serve E rs1 w))) as [xs w3]. split; reflexivity.
Qed.

Lemma effectless_request_invisible_witness :
  effectless (registry (initial_world ∅)) (PostParse (upload "notes.xyz" "hello")) /\
  snd (serve healthy_env
         [PostParse (upload "a.txt" "hi"); PostParse (upload "notes.xyz" "hello");
          GetSupportedFormats] (initial_world ∅))
    = snd (serve healthy_env
             [PostParse (upload "a.txt" "hi"); GetSupportedFormats]
             (initial_world ∅)).
Proof.
  split; [reflexivity|].
  pose proof (effectless_request_invisible healthy_env
                [PostParse (upload "a.txt" "hi")] [GetSupportedFormats]
                (PostParse (upload "notes.xyz" "hello")) (initial_world ∅) eq_refl)
    as H.
  cbv zeta in H. destruct H as [H _].
  exact (f_equal snd H).
Defined.
